(** * Stripe failed-payments monitor: a shallow embedding of [src/index.js]

    The program is an Express application: a process-wide log buffer
    ([logs], [addLog]), two outbound helpers ([sendEmailAlert],
    [logToAirtable]), the enrichment step ([processFailedPayment]) and the
    route handlers.  Every handler is a sequential chain of [await]s, so a
    handler is modelled as a computation in a state-and-exception monad:
    the state holds the log buffer, the console, the clock and the trace of
    everything the handler did to its collaborators; a JavaScript [throw]
    is the [Throw] result, [try { } catch { }] is [try_catch].  A handler
    is run on its own, from any state: what other requests do between two
    of its [await]s is not modelled.

    The outcomes of the outbound calls (Stripe, Gmail, Airtable), the
    clock and the environment are not decided by the program: they are the
    fields of a [World], over which every theorem quantifies.  The routes
    modelled are the four the properties are about: GET /health, GET /logs,
    POST /test and POST /webhook. *)

From Stdlib Require Import String Ascii List ZArith Lia Bool Arith.
Import ListNotations.

Local Open Scope string_scope.
Local Open Scope list_scope.

(** ** JavaScript values used by the program *)

Module Js.

(** An exception value.  What the Stripe, nodemailer and Airtable clients
    throw or reject with is an [Error] object, and the program reads nothing
    of it but [error.message], a string. *)
Record Error := mkError { message : string }.

(** Result of evaluating an expression or awaiting a promise. *)
Inductive Result (A : Type) :=
| Ok (a : A)
| Throw (e : Error).
Arguments Ok {A} a.
Arguments Throw {A} e.

(** Truthiness of a value that is a string, [null] or [undefined]:
    only a non-empty string is truthy. *)
Definition truthy (v : option string) : bool :=
  match v with
  | Some EmptyString => false
  | Some _ => true
  | None => false
  end.

(** [v || d] where [d] is a string literal. *)
Definition or_else (v : option string) (d : string) : string :=
  match v with
  | Some s => if truthy v then s else d
  | None => d
  end.

(** [v || null]. *)
Definition or_null (v : option string) : option string :=
  if truthy v then v else None.

(** The string a truthy value is, for the branch of [if (v)]. *)
Definition if_truthy (v : option string) : option string :=
  match v with
  | Some (String c r) => Some (String c r)
  | _ => None
  end.

(** [String.prototype.toUpperCase], on the ASCII range (the level names
    and ISO currency codes the program applies it to). *)
Definition upper_ascii (c : ascii) : ascii :=
  let n := nat_of_ascii c in
  if (97 <=? n)%nat && (n <=? 122)%nat then ascii_of_nat (n - 32) else c.

Fixpoint toUpperCase (s : string) : string :=
  match s with
  | EmptyString => EmptyString
  | String c r => String (upper_ascii c) (toUpperCase r)
  end.

(** [Array.prototype.slice(-n)]: the last [n] elements, all of them when
    the array is shorter. *)
Definition slice_last {A : Type} (n : nat) (l : list A) : list A :=
  skipn (length l - n) l.

(** [String.prototype.includes]. *)
Fixpoint includes (s needle : string) : bool :=
  if String.prefix needle s then true
  else match s with
       | EmptyString => false
       | String _ r => includes r needle
       end.

(** JSON documents, as passed to [res.json]. *)
#[local] Unset Elimination Schemes.
Inductive Json :=
| JNull
| JBool (b : bool)
| JNum (n : Z)
| JStr (s : string)
| JArr (l : list Json)
| JObj (fields : list (string * Json)).
#[local] Set Elimination Schemes.

Definition JOpt (v : option string) : Json :=
  match v with Some s => JStr s | None => JNull end.

End Js.
Import Js.

(** ** Numbers: [amount / 100] and [toFixed(2)]

    A JavaScript Number is an IEEE-754 binary64 value.  The amounts of the
    program are integers in minor units; [div100] is the binary64 division
    of such an integer by 100 (round to nearest, ties to even), and
    [toFixed2] is [Number.prototype.toFixed] at two fraction digits, which
    works on the exact value of the double. *)

Module Number.

Local Open Scope Z_scope.

(** A finite double: [(-1)^neg * mant * 2^expo]. *)
Record double := mkDouble { neg : bool; mant : Z; expo : Z }.

(** The integer nearest to [num / den], ties to the even one. *)
Definition round_nearest_even (num den : Z) : Z :=
  let q := num / den in
  let r := num mod den in
  if 2 * r <? den then q
  else if den <? 2 * r then q + 1
  else if Z.even q then q else q + 1.

(** The exponent [e] with [2^52 <= p / (100 * 2^e) < 2^53], for [p > 0]:
    the quotient has 53 significant bits at that scale. *)
Definition div100_expo (p : Z) : Z :=
  let l := Z.log2 p in
  (if 100 * 2 ^ l <=? 64 * p then l - 6 else l - 7) - 52.

(** [n / 100] for an integer-valued Number [n].  (A significand rounded
    up to [2^53] is left as it is: the value is the same.) *)
Definition div100 (n : Z) : double :=
  if n =? 0 then mkDouble false 0 0
  else
    let p := Z.abs n in
    let e := div100_expo p in
    let m := if 0 <=? e then round_nearest_even p (100 * 2 ^ e)
             else round_nearest_even (p * 2 ^ (- e)) 100 in
    mkDouble (n <? 0) m e.

(** toFixed, step "let n be an integer for which n / 10^2 - x is as
    close to zero as possible; if there are two such n, pick the larger":
    [floor (100 * x + 1/2)] for [x = mant * 2^expo >= 0]. *)
Definition nearest_hundredths (x : double) : Z :=
  if 0 <=? expo x then 100 * mant x * 2 ^ expo x
  else (200 * mant x + 2 ^ (- expo x)) / 2 ^ (1 - expo x).

Definition digit (d : Z) : ascii := ascii_of_nat (48 + Z.to_nat d).

(** Decimal digits of a non-negative integer, most significant first. *)
Fixpoint digits_fuel (fuel : nat) (n : Z) : list ascii :=
  match fuel with
  | O => []
  | S f =>
      if n <? 10 then [digit n]
      else digits_fuel f (n / 10) ++ [digit (n mod 10)]
  end.

Definition digits (n : Z) : list ascii :=
  digits_fuel (S (Z.to_nat (Z.log2 n))) n.

(** Number-to-string conversion of a non-negative integer (template
    literals, string concatenation). *)
Definition toString (n : Z) : string :=
  string_of_list_ascii (digits n).

(** [x.toFixed(2)]: the digits of the nearest count of hundredths,
    left-padded with zeros to three characters, with the point before the
    last two (the branch of toFixed for [x < 10^21], where every amount
    the program handles lies). *)
Definition toFixed2 (x : double) : string :=
  let s := if neg x then "-" else "" in
  let m := digits (nearest_hundredths x) in
  let m := if (length m <=? 2)%nat
           then repeat "0"%char (3 - length m) ++ m else m in
  let k := length m in
  let a := firstn (k - 2) m in
  let b := skipn (k - 2) m in
  s ++ string_of_list_ascii a ++ "." ++ string_of_list_ascii b.

(** What "the amount divided by 100, to two decimal places" is for an
    integer count of minor units: the integer part, a point, then the
    tens and units of the remainder. *)
Definition two_decimals (n : Z) : string :=
  let p := Z.abs n in
  (if n <? 0 then "-" else "")
  ++ toString (p / 100) ++ "."
  ++ String (digit (p / 10 mod 10)) (String (digit (p mod 10)) "").

End Number.

(** ** Data model *)

(** The three levels [addLog] is called with. *)
Inductive Level := info | warn | error.

Definition level_name (l : Level) : string :=
  match l with
  | info => "info"
  | warn => "warn"
  | error => "error"
  end.

Module LogEntry.
Record t := mk { timestamp : string; level : Level; message : string }.

Definition to_json (e : t) : Json :=
  JObj [("timestamp", JStr (timestamp e));
        ("level", JStr (level_name (level e)));
        ("message", JStr (message e))].
End LogEntry.

(** The Stripe objects the handlers read ([event.data.object], and what
    [paymentIntents.retrieve] resolves to), with the properties the program
    accesses; a property that is [null] or missing is [None]. *)
Module Stripe.
Record PaymentError := mkPaymentError { message : option string }.
Record BillingDetails := mkBillingDetails { email : option string }.

Record Object := mkObject {
  id : string;
  customer : option string;
  amount : Z;
  currency : string;
  last_payment_error : option PaymentError;
  payment_intent : option string;
  billing_details : option BillingDetails;
  failure_message : option string
}.

Record Customer := mkCustomer { customer_email : option string }.

(** [event.type] and [event.data.object]. *)
Record Event := mkEvent { type : string; data_object : Object }.
End Stripe.

(** [paymentData], the record handed to the notifier and the record
    logger. *)
Module PaymentData.
Record t := mk {
  paymentId : string;
  customerId : option string;
  customerEmail : option string;
  amount : Z;
  currency : string;
  failureReason : string;
  timestamp : string
}.

Definition set_customerEmail (v : option string) (pd : t) : t :=
  mk (paymentId pd) (customerId pd) v (amount pd) (currency pd)
     (failureReason pd) (timestamp pd).

(** The record as [res.json] serialises it in POST /test, where an
    absent [customerEmail] is [undefined] and its key is left out. *)
Definition to_json (pd : t) : Json :=
  JObj ([("paymentId", JStr (paymentId pd));
         ("customerId", JOpt (customerId pd))]
        ++ match customerEmail pd with
           | Some e => [("customerEmail", JStr e)]
           | None => []
           end
        ++ [("amount", JNum (amount pd));
            ("currency", JStr (currency pd));
            ("failureReason", JStr (failureReason pd));
            ("timestamp", JStr (timestamp pd))]).
End PaymentData.

(** [mailOptions], the argument of [gmailTransporter.sendMail]. *)
Record MailOptions := mkMailOptions {
  from : option string;
  to : option string;
  subject : string;
  html : string
}.

(** The object given to [base('Failed Payments').create]: column name and
    cell, in the order of the object literal. *)
Definition AirtableRecord := list (string * string).

(** One reading of the wall clock: [Date.now()] and
    [new Date().toISOString()] of the same instant. *)
Record Instant := mkInstant { millis : Z; toISOString : string }.

(** An inbound request, as the webhook route reads it. *)
Record Request := mkRequest {
  headers : string -> option string;
  body : string
}.

(** What a handler answers: [res.json(j)], [res.status(c).json(j)] or
    [res.status(c).send(text)]. *)
Inductive Body :=
| Json_body (j : Json)
| Text_body (text : string).

Record Response := mkResponse { status : nat; sent : Body }.

Definition res_json (j : Json) : Response := mkResponse 200 (Json_body j).

Definition res_status_json (code : nat) (j : Json) : Response :=
  mkResponse code (Json_body j).

Definition res_status_send (code : nat) (text : string) : Response :=
  mkResponse code (Text_body text).

(** The [health] object of GET /health; [checks] in insertion order. *)
Module Health.
Record t := mk {
  status : string;
  timestamp : string;
  checks : list (string * string)
}.

Fixpoint assign (k v : string) (o : list (string * string)) : list (string * string) :=
  match o with
  | [] => [(k, v)]
  | (k', v') :: r => if String.eqb k' k then (k, v) :: r else (k', v') :: assign k v r
  end.

(** [health.checks.k = v]. *)
Definition set_check (k v : string) (h : t) : t :=
  mk (status h) (timestamp h) (assign k v (checks h)).

(** [health.status = v]. *)
Definition set_status (v : string) (h : t) : t :=
  mk v (timestamp h) (checks h).

Definition to_json (h : t) : Json :=
  JObj [("status", JStr (status h));
        ("timestamp", JStr (timestamp h));
        ("checks", JObj (map (fun kv => (fst kv, JStr (snd kv))) (checks h)))].
End Health.

(** ** Effects *)

(** What a handler does that is visible outside its own variables, in the
    order it happens. *)
Inductive Effect :=
| Logged (logEntry : LogEntry.t)                    (* addLog *)
| Call_sendEmailAlert (paymentData : PaymentData.t) (* sendEmailAlert is entered *)
| Call_logToAirtable (paymentData : PaymentData.t)  (* logToAirtable is entered *)
| SendMail (mailOptions : MailOptions)              (* gmailTransporter.sendMail *)
| AirtableCreate (table : string) (record : AirtableRecord)
| CustomersRetrieve (customer : string)             (* stripe.customers.retrieve *)
| PaymentIntentsRetrieve (payment_intent : string)  (* stripe.paymentIntents.retrieve *)
| BalanceRetrieve                                   (* stripe.balance.retrieve *)
| GmailVerify                                       (* gmailTransporter.verify *)
| AirtableFirstPage (table : string).

(** Everything the program does not decide: the clock, the environment and
    the outcome of each outbound call. *)
Record World := mkWorld {
  clock : nat -> Instant;
  env : string -> option string;
  constructEvent : string -> option string -> option string -> Result Stripe.Event;
  customers_retrieve : string -> Result Stripe.Customer;
  paymentIntents_retrieve : string -> Result Stripe.Object;
  sendMail : MailOptions -> Result unit;
  create : string -> AirtableRecord -> Result unit;
  balance_retrieve : Result unit;
  verify : Result unit;
  firstPage : string -> Result unit
}.

(** The process state: the [logs] array, what was written to the console,
    the effects so far and the number of clock readings so far. *)
Record State := mkState {
  logs : list LogEntry.t;
  console : list string;
  trace : list Effect;
  ticks : nat
}.

(** [let logs = []] at start-up. *)
Definition initial : State := mkState [] [] [] 0.

(** Computations: a result or an exception, and the state after. *)
Definition M (A : Type) : Type := State -> Result A * State.

Definition ret {A} (a : A) : M A := fun st => (Ok a, st).

Definition throw {A} (e : Error) : M A := fun st => (Throw e, st).

Definition bind {A B} (m : M A) (k : A -> M B) : M B :=
  fun st =>
    match m st with
    | (Ok a, st') => k a st'
    | (Throw e, st') => (Throw e, st')
    end.

(** [try { m } catch (error) { h error }]. *)
Definition try_catch {A} (m : M A) (h : Error -> M A) : M A :=
  fun st =>
    match m st with
    | (Ok a, st') => (Ok a, st')
    | (Throw e, st') => h e st'
    end.

Declare Scope js_scope.
Delimit Scope js_scope with js.
Notation "x <- m ;; k" := (bind m (fun x => k))
  (at level 61, m at next level, right associativity) : js_scope.
Notation "m ;; k" := (bind m (fun _ => k))
  (at level 61, right associativity) : js_scope.
Local Open Scope js_scope.

(** An effect is appended to the trace. *)
Definition emit (ef : Effect) : M unit :=
  fun st => (Ok tt, mkState (logs st) (console st) (trace st ++ [ef]) (ticks st)).

(** [await f(args)]: the call is made, then its promise settles. *)
Definition await {A} (ef : Effect) (outcome : Result A) : M A :=
  emit ef ;; (fun st => (outcome, st)).

(** A synchronous library call that may throw. *)
Definition eval {A} (outcome : Result A) : M A := fun st => (outcome, st).

Definition run {A} (m : M A) (st : State) : Result A * State := m st.

(** ** The program *)

(** [logs.push(logEntry)] followed by
    [if (logs.length > 100) logs = logs.slice(-100)]. *)
Definition push_log (logEntry : LogEntry.t) (logs : list LogEntry.t)
  : list LogEntry.t :=
  let pushed := logs ++ [logEntry] in
  (* Keep only last 100 logs *)
  if (100 <? length pushed)%nat then slice_last 100 pushed else pushed.

Section Program.

Variable w : World.

Local Open Scope string_scope.

(** One reading of the clock. *)
Definition Date_new : M Instant :=
  fun st =>
    (Ok (clock w (ticks st)),
     mkState (logs st) (console st) (trace st) (S (ticks st))).

(** Logging system: [addLog(message, level)]. *)
Definition addLog (message : string) (level : Level) : M unit :=
  date <- Date_new ;;
  fun st =>
    let logEntry := LogEntry.mk (toISOString date) level message in
    let line := "[" ++ toUpperCase (level_name level) ++ "] " ++ message in
    (Ok tt,
     mkState (push_log logEntry (logs st)) (console st ++ [line])%list
             (trace st ++ [Logged logEntry])%list (ticks st)).

Definition nl : string := String (ascii_of_nat 10) "".

(** The double-quote character. *)
Definition dq : string := String (ascii_of_nat 34) "".

(** The text interpolated after "Amount:" in the e-mail. *)
Definition amount_text (paymentData : PaymentData.t) : string :=
  "$" ++ Number.toFixed2 (Number.div100 (PaymentData.amount paymentData))
  ++ " " ++ toUpperCase (PaymentData.currency paymentData).

(** The interpolated lines of the [html] template of [sendEmailAlert],
    without their indentation. *)
Definition customer_line (paymentData : PaymentData.t) : string :=
  "<p><strong>Customer:</strong> "
  ++ or_else (PaymentData.customerEmail paymentData) "Unknown" ++ "</p>".

Definition amount_line (paymentData : PaymentData.t) : string :=
  "<p><strong>Amount:</strong> " ++ amount_text paymentData ++ "</p>".

Definition customer_id_line (paymentData : PaymentData.t) : string :=
  "<p><strong>Customer ID:</strong> "
  ++ or_else (PaymentData.customerId paymentData) "N/A" ++ "</p>".

(** The [html] template literal of [sendEmailAlert]. *)
Definition alert_html (paymentData : PaymentData.t) : string :=
  nl ++
  "        <h2>Payment Failure Alert</h2>" ++ nl ++
  "        " ++ customer_line paymentData ++ nl ++
  "        " ++ amount_line paymentData ++ nl ++
  "        <p><strong>Failure Reason:</strong> "
    ++ PaymentData.failureReason paymentData ++ "</p>" ++ nl ++
  "        <p><strong>Payment ID:</strong> "
    ++ PaymentData.paymentId paymentData ++ "</p>" ++ nl ++
  "        <p><strong>Time:</strong> "
    ++ PaymentData.timestamp paymentData ++ "</p>" ++ nl ++
  "        " ++ customer_id_line paymentData ++ nl ++
  "        " ++ nl ++
  "        <hr>" ++ nl ++
  "        <p>This alert was generated automatically by your Stripe Failed Payments Monitor.</p>" ++ nl ++
  "      ".

(** [process.env.ALERT_EMAIL || process.env.GMAIL_USER]. *)
Definition alert_recipient : option string :=
  if truthy (env w "ALERT_EMAIL") then env w "ALERT_EMAIL"
  else env w "GMAIL_USER".

(** The [mailOptions] object of [sendEmailAlert]. *)
Definition alert_mail (paymentData : PaymentData.t) : MailOptions :=
  mkMailOptions (env w "GMAIL_USER") alert_recipient
                "🚨 Stripe Payment Failed Alert"
                (alert_html paymentData).

(** Helper function to send email alert. *)
Definition sendEmailAlert (paymentData : PaymentData.t) : M unit :=
  emit (Call_sendEmailAlert paymentData) ;;
  try_catch
    (let mailOptions := alert_mail paymentData in
     await (SendMail mailOptions) (sendMail w mailOptions) ;;
     addLog ("Email alert sent successfully for payment "
             ++ PaymentData.paymentId paymentData) info)
    (fun err =>
       addLog ("Failed to send email alert: " ++ message err) error).

(** The row written by [logToAirtable]. *)
Definition airtable_record (paymentData : PaymentData.t) : AirtableRecord :=
  [("Payment ID", PaymentData.paymentId paymentData);
   ("Customer Email", or_else (PaymentData.customerEmail paymentData) "Unknown");
   ("Customer ID", or_else (PaymentData.customerId paymentData) "N/A");
   ("Amount", Number.toFixed2 (Number.div100 (PaymentData.amount paymentData)));
   ("Currency", toUpperCase (PaymentData.currency paymentData));
   ("Failure Reason", PaymentData.failureReason paymentData);
   ("Timestamp", PaymentData.timestamp paymentData);
   ("Status", "Failed");
   ("Alert Sent", "Yes")].

(** Helper function to log to Airtable. *)
Definition logToAirtable (paymentData : PaymentData.t) : M unit :=
  emit (Call_logToAirtable paymentData) ;;
  try_catch
    (let record := airtable_record paymentData in
     await (AirtableCreate "Failed Payments" record)
           (create w "Failed Payments" record) ;;
     addLog ("Payment failure logged to Airtable: "
             ++ PaymentData.paymentId paymentData) info)
    (fun err =>
       addLog ("Failed to log to Airtable: " ++ message err) error ;;
       if includes (message err) "NOT_FOUND" then
         addLog ("Please create a " ++ dq ++ "Failed Payments" ++ dq
                 ++ " table in your Growth AI Airtable base with the following fields:")
                warn ;;
         addLog "- Payment ID (Single line text)" warn ;;
         addLog "- Customer Email (Email)" warn ;;
         addLog "- Customer ID (Single line text)" warn ;;
         addLog "- Amount (Number)" warn ;;
         addLog "- Currency (Single line text)" warn ;;
         addLog "- Failure Reason (Long text)" warn ;;
         addLog "- Timestamp (Date)" warn ;;
         addLog "- Status (Single select: Failed)" warn ;;
         addLog "- Alert Sent (Single select: Yes, No)" warn
       else ret tt).

(** [paymentIntent.last_payment_error?.message]. *)
Definition last_payment_error_message (o : Stripe.Object) : option string :=
  match Stripe.last_payment_error o with
  | Some e => Stripe.message e
  | None => None
  end.

(** Process failed payment. *)
Definition processFailedPayment (paymentIntent : Stripe.Object) : M unit :=
  date <- Date_new ;;
  let paymentData :=
    PaymentData.mk (Stripe.id paymentIntent)
                   (Stripe.customer paymentIntent)
                   None
                   (Stripe.amount paymentIntent)
                   (Stripe.currency paymentIntent)
                   (or_else (last_payment_error_message paymentIntent) "Unknown error")
                   (toISOString date) in
  (* Try to get customer email if customer ID exists *)
  paymentData <-
    (match if_truthy (Stripe.customer paymentIntent) with
     | Some cus =>
         try_catch
           (customer <- await (CustomersRetrieve cus) (customers_retrieve w cus) ;;
            ret (PaymentData.set_customerEmail
                   (Stripe.customer_email customer) paymentData))
           (fun err =>
              addLog ("Could not retrieve customer email: " ++ message err) warn ;;
              ret paymentData)
     | None => ret paymentData
     end) ;;
  addLog ("Processing failed payment: " ++ PaymentData.paymentId paymentData
          ++ " - $" ++ Number.toFixed2 (Number.div100 (PaymentData.amount paymentData)))
         info ;;
  (* Send email alert *)
  sendEmailAlert paymentData ;;
  (* Log to Airtable *)
  logToAirtable paymentData.

(** *** Routes *)

(** GET /health - Health check. *)
Definition get_health : M Response :=
  date <- Date_new ;;
  let health := Health.mk "healthy" (toISOString date) [] in
  (* Test Stripe connection *)
  health <-
    try_catch
      (await BalanceRetrieve (balance_retrieve w) ;;
       ret (Health.set_check "stripe" "connected" health))
      (fun _ =>
         ret (Health.set_status "unhealthy"
                (Health.set_check "stripe" "error" health))) ;;
  (* Test Gmail connection *)
  health <-
    try_catch
      (await GmailVerify (verify w) ;;
       ret (Health.set_check "gmail" "connected" health))
      (fun _ =>
         ret (Health.set_status "unhealthy"
                (Health.set_check "gmail" "error" health))) ;;
  (* Test Airtable connection *)
  health <-
    try_catch
      (await (AirtableFirstPage "Failed Payments") (firstPage w "Failed Payments") ;;
       ret (Health.set_check "airtable" "connected" health))
      (fun _ =>
         ret (Health.set_check "airtable" "table_needs_creation" health)) ;;
  ret (res_json (Health.to_json health)).

(** GET /logs - View recent logs. *)
Definition get_logs : M Response :=
  fun st =>
    (Ok (res_json
           (JObj [("logs", JArr (map LogEntry.to_json (slice_last 50 (logs st))));
                  ("total", JNum (Z.of_nat (length (logs st))))])),
     st).

(** POST /test - Manual test run. *)
Definition post_test : M Response :=
  addLog "Manual test initiated" info ;;
  now <- Date_new ;;
  date <- Date_new ;;
  let testPaymentData :=
    PaymentData.mk ("pi_test_" ++ Number.toString (millis now))
                   (Some "cus_test_customer")
                   alert_recipient
                   2500
                   "usd"
                   "Test failure - insufficient funds"
                   (toISOString date) in
  try_catch
    (sendEmailAlert testPaymentData ;;
     logToAirtable testPaymentData ;;
     addLog "Test completed successfully" info ;;
     ret (res_json
            (JObj [("success", JBool true);
                   ("message", JStr "Test alert sent and logged successfully");
                   ("testData", PaymentData.to_json testPaymentData)])))
    (fun err =>
       addLog ("Test failed: " ++ message err) error ;;
       ret (res_status_json 500
              (JObj [("success", JBool false);
                     ("error", JStr (message err))]))).

(** [charge.billing_details?.email]. *)
Definition billing_email (charge : Stripe.Object) : option string :=
  match Stripe.billing_details charge with
  | Some b => Stripe.email b
  | None => None
  end.

(** POST /webhook - Stripe webhook endpoint. *)
Definition post_webhook (req : Request) : M Response :=
  let sig := headers req "stripe-signature" in
  verified <-
    try_catch
      (event <- eval (constructEvent w (body req) sig
                                     (env w "STRIPE_WEBHOOK_SECRET")) ;;
       ret (inl event))
      (fun err =>
         addLog ("Webhook signature verification failed: " ++ message err) error ;;
         ret (inr (res_status_send 400 ("Webhook Error: " ++ message err)))) ;;
  match verified with
  | inr response => ret response
  | inl event =>
      addLog ("Received webhook event: " ++ Stripe.type event) info ;;
      (* Handle payment failure events *)
      (if Stripe.type event =? "payment_intent.payment_failed" then
         processFailedPayment (Stripe.data_object event)
       else if Stripe.type event =? "invoice.payment_failed" then
         let invoice := Stripe.data_object event in
         match if_truthy (Stripe.payment_intent invoice) with
         | Some pi =>
             try_catch
               (paymentIntent <- await (PaymentIntentsRetrieve pi)
                                       (paymentIntents_retrieve w pi) ;;
                processFailedPayment paymentIntent)
               (fun err =>
                  addLog ("Error processing invoice payment failure: "
                          ++ message err) error)
         | None => ret tt
         end
       else if Stripe.type event =? "charge.failed" then
         let charge := Stripe.data_object event in
         date <- Date_new ;;
         let paymentData :=
           PaymentData.mk (Stripe.id charge)
                          (Stripe.customer charge)
                          (or_null (billing_email charge))
                          (Stripe.amount charge)
                          (Stripe.currency charge)
                          (or_else (Stripe.failure_message charge) "Unknown error")
                          (toISOString date) in
         sendEmailAlert paymentData ;;
         logToAirtable paymentData
       else ret tt) ;;
      ret (res_json (JObj [("received", JBool true)]))
  end.

End Program.

(** ** The remaining routes and start-up *)

(** The event types GET /webhook/info tells the operator to subscribe to. *)
Definition eventsToSubscribe : list string :=
  ["payment_intent.payment_failed"; "invoice.payment_failed"; "charge.failed"]%string.

Section Service.

Variable w : World.

Local Open Scope string_scope.

(** [const port = process.env.PORT || 3000], as a template literal prints
    it. *)
Definition port : string := or_else (env w "PORT") "3000".

(** Start server: the callback of [app.listen]. *)
Definition listen : M unit :=
  addLog w ("Stripe Failed Payments Monitor started on port " ++ port) info ;;
  addLog w "Ready to monitor failed payments and send alerts" info.

(** GET / - Status and available endpoints. *)
Definition get_root : M Response :=
  date <- Date_new w ;;
  ret (res_json
         (JObj [("service", JStr "Stripe Failed Payments Monitor");
                ("status", JStr "running");
                ("endpoints",
                 JObj [("GET /", JStr "This status page");
                       ("GET /health", JStr "Health check");
                       ("GET /logs", JStr "View recent logs");
                       ("POST /test", JStr "Manual test run");
                       ("POST /webhook", JStr "Stripe webhook endpoint");
                       ("GET /webhook/info", JStr "Webhook configuration info")]);
                ("lastStarted", JStr (toISOString date))])).

(** GET /webhook/info - Webhook configuration info; [protocol] is
    [req.protocol] and [host] is [req.get('host')], printed "undefined"
    when the header is missing. *)
Definition get_webhook_info (protocol : string) (host : option string)
  : M Response :=
  ret (res_json
         (JObj [("webhookUrl",
                 JStr (protocol ++ "://"
                       ++ match host with Some h => h | None => "undefined" end
                       ++ "/webhook"));
                ("eventsToSubscribe", JArr (map JStr eventsToSubscribe));
                ("instructions",
                 JStr "Add this webhook URL to your Stripe Dashboard under Developers > Webhooks")])).

End Service.

(** The routes registered on [app]. *)
Inductive Route :=
| GET_root
| GET_health
| GET_logs
| POST_test
| GET_webhook_info (protocol : string) (host : option string)
| POST_webhook (req : Request).

(** The handler a request is routed to; the request is handled in the world
    [w] it arrives in. *)
Definition handle (w : World) (r : Route) : M Response :=
  match r with
  | GET_root => get_root w
  | GET_health => get_health w
  | GET_logs => get_logs
  | POST_test => post_test w
  | GET_webhook_info protocol host => get_webhook_info protocol host
  | POST_webhook req => post_webhook w req
  end.

(** Requests handled one after the other; the answers, oldest first. *)
Fixpoint handle_all (rs : list (World * Route)) (st : State)
  : list (Result Response) * State :=
  match rs with
  | [] => ([], st)
  | (w, r) :: rest =>
      let (a, st') := run (handle w r) st in
      let (answers, st'') := handle_all rest st' in
      (a :: answers, st'')
  end.

(** The state once the server listens. *)
Definition started (w : World) : State := snd (run (listen w) initial).

(** ** Vocabulary of the properties *)

(** The log entries among some effects, in order. *)
Fixpoint logged (l : list Effect) : list LogEntry.t :=
  match l with
  | [] => []
  | Logged e :: r => e :: logged r
  | _ :: r => logged r
  end.

(** The buffer after the entries [es] are appended one by one. *)
Definition append_all (buffer es : list LogEntry.t) : list LogEntry.t :=
  fold_left (fun l e => push_log e l) es buffer.

(** Running [m] from [st] ends with the result [r] (a value or an
    exception), having added exactly the effects [new] to the trace and
    appended to the log buffer exactly the entries logged among them; [Q]
    holds of [r] and [new]. *)
Definition outcome {A} (m : M A) (st : State)
           (Q : Result A -> list Effect -> Prop) : Prop :=
  exists r st' new,
    run m st = (r, st')
    /\ trace st' = trace st ++ new
    /\ logs st' = append_all (logs st) (logged new)
    /\ Q r new.

Definition is_notifier_call (ef : Effect) : bool :=
  match ef with Call_sendEmailAlert _ | SendMail _ => true | _ => false end.

Definition is_record_logger_call (ef : Effect) : bool :=
  match ef with Call_logToAirtable _ | AirtableCreate _ _ => true | _ => false end.

Definition is_provider_fetch (ef : Effect) : bool :=
  match ef with
  | CustomersRetrieve _ | PaymentIntentsRetrieve _ | BalanceRetrieve => true
  | _ => false
  end.

Definition is_log_at (lvl : Level) (ef : Effect) : bool :=
  match ef with
  | Logged e =>
      match LogEntry.level e, lvl with
      | info, info | warn, warn | error, error => true
      | _, _ => false
      end
  | _ => false
  end.

Definition count (p : Effect -> bool) (l : list Effect) : nat :=
  length (filter p l).

(** Nothing but log entries. *)
Definition only_logs (l : list Effect) : bool :=
  forallb (fun ef => match ef with Logged _ => true | _ => false end) l.

(** [t] occurs in [s]. *)
Definition contains (s t : string) : Prop :=
  exists a b, s = (a ++ t ++ b)%string.

Definition ok {A} (r : Result A) : bool :=
  match r with Ok _ => true | Throw _ => false end.

(** The entry [addLog(message, level)] creates at the [tick]-th reading of
    the clock. *)
Definition entry_at (w : World) (tick : nat) (ml : string * Level) : LogEntry.t :=
  LogEntry.mk (toISOString (clock w tick)) (snd ml) (fst ml).

(** A sequence of [addLog] calls. *)
Fixpoint record_all (w : World) (ms : list (string * Level)) : M unit :=
  match ms with
  | [] => ret tt
  | (message, level) :: r => addLog w message level ;; record_all w r
  end.

(** The entries those calls create when the first reads the clock at
    [tick]. *)
Fixpoint stamped (w : World) (tick : nat) (ms : list (string * Level))
  : list LogEntry.t :=
  match ms with
  | [] => []
  | ml :: r => entry_at w tick ml :: stamped w (S tick) r
  end.

(** The state after [ms] were recorded since start-up. *)
Definition recorded (w : World) (ms : list (string * Level)) : State :=
  snd (run (record_all w ms) initial).

(** The [total] of a GET /logs answer. *)
Definition response_total (r : Response) : option Z :=
  match sent r with
  | Json_body (JObj [("logs", _); ("total", JNum n)]) => Some n
  | _ => None
  end.

(** The answer of a handler that returned. *)
Definition answer (r : Result Response * State) : option Response :=
  match fst r with Ok resp => Some resp | Throw _ => None end.

(** The acknowledgement of POST /webhook. *)
Definition received : Response :=
  mkResponse 200 (Json_body (JObj [("received", JBool true)])).

(** The [total] GET /logs reports in the state [st]. *)
Definition logs_total (st : State) : option Z :=
  match answer (run get_logs st) with
  | Some r => response_total r
  | None => None
  end.

(** The line [addLog] prints on the console for an entry. *)
Definition console_line (e : LogEntry.t) : string :=
  ("[" ++ toUpperCase (level_name (LogEntry.level e)) ++ "] "
   ++ LogEntry.message e)%string.

(** The buffer and the console agree with the trace: the buffer is the last
    100 of the entries ever logged, the console has a line for each of
    them. *)
Definition consistent (st : State) : Prop :=
  logs st = slice_last 100 (logged (trace st))
  /\ console st = map console_line (logged (trace st)).

(** [m] keeps the buffer and the console in agreement with the trace,
    whether it returns or throws. *)
Definition preserves {A} (m : M A) : Prop :=
  forall st, consistent st -> consistent (snd (run m st)).

(** The outbound calls among some effects. *)
Definition is_outbound (ef : Effect) : bool :=
  match ef with
  | SendMail _ | AirtableCreate _ _ | CustomersRetrieve _
  | PaymentIntentsRetrieve _ | BalanceRetrieve | GmailVerify
  | AirtableFirstPage _ => true
  | _ => false
  end.

(** The value of a string of decimal digits. *)
Definition digits_value (l : list ascii) : Z :=
  fold_left (fun acc c => (10 * acc + (Z.of_nat (nat_of_ascii c) - 48))%Z) l 0%Z.

Definition is_mail_sent (ef : Effect) : bool :=
  match ef with SendMail _ => true | _ => false end.

Definition is_row_created (ef : Effect) : bool :=
  match ef with AirtableCreate _ _ => true | _ => false end.

(** The entry [sendEmailAlert] logs for the record [pd] in the world [w]. *)
Definition mail_log (w : World) (pd : PaymentData.t) : Level * string :=
  match sendMail w (alert_mail w pd) with
  | Ok _ =>
      (info, ("Email alert sent successfully for payment "
              ++ PaymentData.paymentId pd)%string)
  | Throw e => (error, ("Failed to send email alert: " ++ message e)%string)
  end.

(** The first entry [logToAirtable] logs for the record [pd] in the world
    [w], and the number of guidance entries that follow it. *)
Definition row_log (w : World) (pd : PaymentData.t) : Level * string :=
  match create w "Failed Payments" (airtable_record pd) with
  | Ok _ =>
      (info, ("Payment failure logged to Airtable: "
              ++ PaymentData.paymentId pd)%string)
  | Throw e => (error, ("Failed to log to Airtable: " ++ message e)%string)
  end.

Definition guidance_length (w : World) (pd : PaymentData.t) : nat :=
  match create w "Failed Payments" (airtable_record pd) with
  | Ok _ => 0
  | Throw e => if includes (message e) "NOT_FOUND" then 10 else 0
  end.

(** The effects of [sendEmailAlert] followed by [logToAirtable] on the
    record [pd]. *)
Definition notified_and_recorded (w : World) (pd : PaymentData.t)
           (new : list Effect) : Prop :=
  exists t1 t2 guidance,
    new = [Call_sendEmailAlert pd;
           SendMail (alert_mail w pd);
           Logged (LogEntry.mk t1 (fst (mail_log w pd)) (snd (mail_log w pd)));
           Call_logToAirtable pd;
           AirtableCreate "Failed Payments" (airtable_record pd);
           Logged (LogEntry.mk t2 (fst (row_log w pd)) (snd (row_log w pd)))]
          ++ guidance
    /\ forallb (is_log_at warn) guidance = true
    /\ length guidance = guidance_length w pd.

(** The effects the customer lookup of [processFailedPayment] can have. *)
Definition is_lookup (ef : Effect) : bool :=
  match ef with CustomersRetrieve _ | Logged _ => true | _ => false end.

(** The count of minor units a rendered amount stands for: its digits, read
    without the decimal point. *)
Definition minor_units_of (s : string) : Z :=
  digits_value
    (filter (fun c => negb (Ascii.eqb c "."%char)) (list_ascii_of_string s)).

(** *** Sample worlds and events *)

Module Sample.

Local Open Scope string_scope.

Definition clock (k : nat) : Instant :=
  mkInstant (1756506573973 + Z.of_nat k)
            ("2025-08-29T22:29:33." ++ Number.toString (Z.of_nat k) ++ "Z").

Definition env (name : string) : option string :=
  if name =? "GMAIL_USER" then Some "monitor@example.com"
  else if name =? "STRIPE_WEBHOOK_SECRET" then Some "whsec_test"
  else None.

(** The signature check passes when the header is there. *)
Definition constructEvent (event : Stripe.Event)
           (body : string) (sig secret : option string) : Result Stripe.Event :=
  match sig with
  | Some _ => Ok event
  | None => Throw (mkError "No stripe-signature header value was provided.")
  end.

Definition intent : Stripe.Object :=
  Stripe.mkObject "pi_123" (Some "cus_9") 2500 "usd"
                  (Some (Stripe.mkPaymentError (Some "Your card was declined.")))
                  None None None.

(** Every outbound call succeeds. *)
Definition up (event : Stripe.Event) : World :=
  mkWorld clock env (constructEvent event)
          (fun _ => Ok (Stripe.mkCustomer (Some "jo@example.com")))
          (fun _ => Ok intent)
          (fun _ => Ok tt)
          (fun _ _ => Ok tt)
          (Ok tt) (Ok tt) (fun _ => Ok tt).

(** Every outbound call fails. *)
Definition down (event : Stripe.Event) : World :=
  mkWorld clock env (constructEvent event)
          (fun _ => Throw (mkError "No such customer"))
          (fun _ => Throw (mkError "No such payment_intent"))
          (fun _ => Throw (mkError "Invalid login"))
          (fun _ _ => Throw (mkError "NOT_FOUND"))
          (Throw (mkError "Invalid API Key"))
          (Throw (mkError "Invalid login"))
          (fun _ => Throw (mkError "NOT_FOUND")).

Definition intent_failed : Stripe.Event :=
  Stripe.mkEvent "payment_intent.payment_failed" intent.

Definition invoice_failed : Stripe.Event :=
  Stripe.mkEvent "invoice.payment_failed"
    (Stripe.mkObject "in_1" (Some "cus_9") 2500 "usd" None (Some "pi_123") None None).

Definition invoice_without_intent : Stripe.Event :=
  Stripe.mkEvent "invoice.payment_failed"
    (Stripe.mkObject "in_2" (Some "cus_9") 2500 "usd" None None None None).

Definition charge_failed : Stripe.Event :=
  Stripe.mkEvent "charge.failed"
    (Stripe.mkObject "ch_1" None 2500 "usd" None None
                     (Some (Stripe.mkBillingDetails None))
                     (Some "Your card has insufficient funds.")).

Definition signed : Request :=
  mkRequest (fun h => if h =? "stripe-signature" then Some "t=1,v1=abc" else None)
            "{}".

Definition unsigned : Request := mkRequest (fun _ => None) "{}".

Definition messages (n : nat) : list (string * Level) :=
  map (fun i => (Number.toString (Z.of_nat i), info)) (seq 0 n).

End Sample.

(** * Properties *)

(** ** Arithmetic of [amount / 100] and [toFixed(2)] *)

Module NumberFacts.

Import Number.
Local Open Scope Z_scope.

(** Rounding to nearest is within half a unit. *)
Lemma round_nearest_even_close (num den : Z) :
  0 < den ->
  2 * Z.abs (den * round_nearest_even num den - num) <= den.
Proof.
  intros Hden. unfold round_nearest_even.
  pose proof (Z.div_mod num den ltac:(lia)) as Hdm.
  pose proof (Z.mod_pos_bound num den Hden) as Hr.
  set (q := num / den) in *. set (r := num mod den) in *.
  destruct (Z.ltb_spec (2 * r) den); [nia|].
  destruct (Z.ltb_spec den (2 * r)); [nia|].
  destruct (Z.even q); nia.
Qed.

(** [div100_expo] is the exponent of the quotient: at that scale it lies
    between [2^52] and [2^53].  (Both sides are multiplied by [2^7] to
    keep the powers integral.) *)
Lemma div100_expo_normal (p : Z) :
  0 < p ->
  100 * 2 ^ (div100_expo p + 59) <= 128 * p < 100 * 2 ^ (div100_expo p + 60).
Proof.
  intros Hp. unfold div100_expo.
  pose proof (Z.log2_spec p Hp) as [Hlo Hhi].
  pose proof (Z.log2_nonneg p) as Hl.
  set (l := Z.log2 p) in *.
  rewrite Z.pow_succ_r in Hhi by lia.
  destruct (Z.leb_spec (100 * 2 ^ l) (64 * p)).
  - replace (l - 6 - 52 + 59) with (Z.succ l) by lia.
    replace (l - 6 - 52 + 60) with (Z.succ (Z.succ l)) by lia.
    rewrite !Z.pow_succ_r by lia. lia.
  - replace (l - 7 - 52 + 59) with l by lia.
    replace (l - 7 - 52 + 60) with (Z.succ l) by lia.
    rewrite !Z.pow_succ_r by lia. lia.
Qed.

(** Below [2^52] the quotient by 100 is scaled by at least [2^7]. *)
Lemma div100_expo_small (p : Z) :
  0 < p < 2 ^ 52 -> div100_expo p <= -7.
Proof.
  intros [Hp Hlt]. unfold div100_expo.
  assert (Z.log2 p < 52) by (apply Z.log2_lt_pow2; lia).
  destruct (100 * 2 ^ Z.log2 p <=? 64 * p); lia.
Qed.

(** The double nearest to [n / 100] is nearer to [|n|] hundredths than
    to any other count of hundredths. *)
Lemma nearest_hundredths_div100 (n : Z) :
  Z.abs n < 2 ^ 52 -> nearest_hundredths (div100 n) = Z.abs n.
Proof.
  intros Hn. unfold div100.
  destruct (Z.eqb_spec n 0) as [->|Hn0]; [reflexivity|].
  set (p := Z.abs n) in *.
  assert (Hp : 0 < p < 2 ^ 52) by (subst p; lia).
  pose proof (div100_expo_small p Hp) as He.
  unfold nearest_hundredths; cbn [expo mant].
  destruct (Z.leb_spec 0 (div100_expo p)); [lia|].
  set (e := div100_expo p) in *.
  set (m := round_nearest_even (p * 2 ^ (- e)) 100).
  pose proof (round_nearest_even_close (p * 2 ^ (- e)) 100 ltac:(lia)) as Hm.
  fold m in Hm.
  assert (Hpow : 2 ^ (- e) = 128 * 2 ^ (- e - 7)).
  { replace (- e) with (7 + (- e - 7)) at 1 by lia.
    rewrite Z.pow_add_r by lia. reflexivity. }
  assert (Hpow1 : 2 ^ (1 - e) = 2 * 2 ^ (- e)).
  { replace (1 - e) with (1 + - e) by lia.
    rewrite Z.pow_add_r by lia. reflexivity. }
  assert (0 < 2 ^ (- e - 7)) by (apply Z.pow_pos_nonneg; lia).
  rewrite Hpow1. set (t := 2 ^ (- e)) in *.
  symmetry. apply Z.div_unique with (r := 200 * m + t - p * (2 * t)); lia.
Qed.

(** [nearest_hundredths] is what toFixed asks for: no count of
    hundredths is nearer to [x], and of two equally near the larger is
    taken.  With [x = mant / t] and [t = 2^(-expo)], the condition
    [-1/2 < k - 100 x <= 1/2] is the one below. *)
Lemma nearest_hundredths_nearest (x : double) :
  expo x < 0 ->
  let t := 2 ^ (- expo x) in
  let k := nearest_hundredths x in
  - t < 2 * (k * t - 100 * mant x) <= t.
Proof.
  intros He t k. subst k. unfold nearest_hundredths.
  destruct (Z.leb_spec 0 (expo x)); [lia|].
  fold t.
  assert (Ht : 0 < t) by (apply Z.pow_pos_nonneg; lia).
  replace (2 ^ (1 - expo x)) with (2 * t).
  2:{ subst t. replace (1 - expo x) with (1 + - expo x) by lia.
      rewrite Z.pow_add_r by lia. reflexivity. }
  pose proof (Z.div_mod (200 * mant x + t) (2 * t) ltac:(lia)) as Hdm.
  pose proof (Z.mod_pos_bound (200 * mant x + t) (2 * t) ltac:(lia)) as Hr.
  set (q := (200 * mant x + t) / (2 * t)) in *.
  set (r := (200 * mant x + t) mod (2 * t)) in *.
  clearbody q r t. nia.
Qed.

(** Fuel beyond the number of bits changes nothing. *)
Lemma digits_fuel_enough (f1 : nat) :
  forall (f2 : nat) (n : Z),
    0 <= n < 2 ^ Z.of_nat f1 -> n < 2 ^ Z.of_nat f2 ->
    (0 < f1)%nat -> (0 < f2)%nat ->
    digits_fuel f1 n = digits_fuel f2 n.
Proof.
  induction f1 as [|f1 IH]; intros f2 n H1 H2 Hf1 Hf2; [lia|].
  destruct f2 as [|f2]; [lia|].
  cbn [digits_fuel]. destruct (Z.ltb_spec n 10) as [|Hge]; [reflexivity|].
  f_equal.
  rewrite !Nat2Z.inj_succ, !Z.pow_succ_r in * by lia.
  assert (n / 10 < 2 ^ Z.of_nat f1)
    by (apply Z.div_lt_upper_bound; lia).
  assert (n / 10 < 2 ^ Z.of_nat f2)
    by (apply Z.div_lt_upper_bound; lia).
  assert (0 <= n / 10) by (apply Z.div_pos; lia).
  apply IH; try lia.
  - destruct f1; [cbn in *; lia | lia].
  - destruct f2; [cbn in *; lia | lia].
Qed.

Lemma digits_lt_10 (n : Z) : n < 10 -> digits n = [digit n].
Proof.
  intros H. unfold digits. cbn [digits_fuel].
  destruct (Z.ltb_spec n 10); [reflexivity | lia].
Qed.

Lemma digits_step (n : Z) :
  10 <= n -> digits n = digits (n / 10) ++ [digit (n mod 10)].
Proof.
  intros H. unfold digits at 1. cbn [digits_fuel].
  destruct (Z.ltb_spec n 10); [lia|]. f_equal.
  pose proof (Z.log2_spec n ltac:(lia)) as [Hlo Hhi].
  assert (3 <= Z.log2 n) by (apply Z.log2_le_pow2; lia).
  rewrite Z.pow_succ_r in Hhi by lia.
  assert (0 <= n / 10) by (apply Z.div_pos; lia).
  assert (Hq : n / 10 < 2 ^ Z.log2 n)
    by (apply Z.div_lt_upper_bound; lia).
  unfold digits. apply digits_fuel_enough; try lia.
  - rewrite Z2Nat.id by lia. lia.
  - rewrite Nat2Z.inj_succ, Z2Nat.id by apply Z.log2_nonneg.
    destruct (Z.eq_dec (n / 10) 0) as [->|]; [cbn; lia|].
    apply Z.log2_spec. lia.
Qed.

Lemma digits_nonempty (n : Z) : (1 <= length (digits n))%nat.
Proof.
  destruct (Z.lt_ge_cases n 10).
  - rewrite digits_lt_10 by assumption. cbn. lia.
  - rewrite digits_step by assumption. rewrite length_app. cbn. lia.
Qed.

(** Padding to three characters and cutting before the last two gives the
    digits of the hundreds and the two digits of the remainder. *)
Lemma pad_and_split (k : Z) :
  0 <= k ->
  let m := digits k in
  let m' := if (length m <=? 2)%nat
            then repeat "0"%char (3 - length m) ++ m else m in
  firstn (length m' - 2) m' = digits (k / 100)
  /\ skipn (length m' - 2) m' = [digit (k / 10 mod 10); digit (k mod 10)].
Proof.
  intros Hk.
  destruct (Z.lt_ge_cases k 10) as [H10|H10].
  { cbv zeta.
    rewrite (Z.div_small k 100), (Z.div_small k 10), (Z.mod_small k 10) by lia.
    rewrite (digits_lt_10 k), (digits_lt_10 0) by lia.
    split; reflexivity. }
  destruct (Z.lt_ge_cases k 100) as [H100|H100].
  { cbv zeta. rewrite (digits_step k) by assumption.
    assert (0 <= k / 10 < 10)
      by (split; [apply Z.div_pos | apply Z.div_lt_upper_bound]; lia).
    rewrite (Z.div_small k 100), (Z.mod_small (k / 10) 10) by lia.
    rewrite (digits_lt_10 (k / 10)), (digits_lt_10 0) by lia.
    split; reflexivity. }
  cbv zeta. rewrite (digits_step k) by assumption.
  assert (10 <= k / 10) by (apply Z.div_le_lower_bound; lia).
  rewrite (digits_step (k / 10)) by assumption.
  rewrite Z.div_div by lia. change (10 * 10) with 100.
  set (d := digits (k / 100)).
  pose proof (digits_nonempty (k / 100)) as Hd. fold d in Hd.
  rewrite <- app_assoc. cbn [app].
  set (lo := [digit (k / 10 mod 10); digit (k mod 10)]).
  assert (Hlo : length lo = 2%nat) by reflexivity.
  clearbody d lo.
  replace (length (d ++ lo) <=? 2)%nat with false.
  2:{ symmetry. apply Nat.leb_gt. rewrite length_app. lia. }
  replace (length (d ++ lo) - 2)%nat with (length d + 0)%nat
    by (rewrite length_app; lia).
  split.
  - rewrite firstn_app_2. cbn. apply app_nil_r.
  - rewrite skipn_app, Nat.add_0_r, skipn_all.
    replace (length d - length d)%nat with 0%nat by lia. reflexivity.
Qed.

Lemma string_of_list_ascii_app (a b : list ascii) :
  string_of_list_ascii (a ++ b)
  = (string_of_list_ascii a ++ string_of_list_ascii b)%string.
Proof.
  induction a as [|c a IH]; cbn; [reflexivity|]. now rewrite IH.
Qed.

(** Below [2^52] minor units, [(n / 100).toFixed(2)] is the exact decimal
    expansion of [n] hundredths. *)
Lemma toFixed2_div100 (n : Z) :
  Z.abs n < 2 ^ 52 -> toFixed2 (div100 n) = two_decimals n.
Proof.
  intros Hn. unfold toFixed2, two_decimals.
  rewrite nearest_hundredths_div100 by assumption.
  destruct (pad_and_split (Z.abs n) ltac:(lia)) as [Ha Hb].
  cbv zeta in Ha, Hb. cbv zeta. rewrite Ha, Hb.
  replace (neg (div100 n)) with (n <? 0).
  2:{ unfold div100. destruct (Z.eqb_spec n 0) as [->|]; reflexivity. }
  reflexivity.
Qed.

(** The bound is not an artefact of the proof: from [100 * 2^46] minor
    units on, the spacing of doubles near the quotient exceeds a cent, and
    the nearest double can be nearer to a neighbouring count of hundredths. *)
Remark toFixed2_div100_beyond_bound :
  toFixed2 (div100 7681329831261318) = "76813298312613.19"%string
  /\ two_decimals 7681329831261318 = "76813298312613.18"%string.
Proof. split; vm_compute; reflexivity. Qed.

End NumberFacts.

(** ** The log buffer *)

Section SliceFacts.

Context {A : Type}.
Implicit Types l m : list A.

Lemma slice_last_length (n : nat) l :
  length (slice_last n l) = Nat.min n (length l).
Proof. unfold slice_last. rewrite length_skipn. lia. Qed.

Lemma slice_last_short (n : nat) l :
  length l <= n -> slice_last n l = l.
Proof.
  intros H. unfold slice_last.
  replace (length l - n) with 0 by lia. reflexivity.
Qed.

(** Cutting before appending changes nothing once the result is cut
    again. *)
Lemma slice_last_app_absorb (n : nat) l m :
  slice_last n (slice_last n l ++ m) = slice_last n (l ++ m).
Proof.
  unfold slice_last.
  set (d := length l - n).
  assert (Hd : skipn d l ++ m = skipn d (l ++ m)).
  { rewrite skipn_app. replace (d - length l) with 0 by lia. reflexivity. }
  rewrite Hd, skipn_skipn. f_equal.
  rewrite length_skipn, !length_app. lia.
Qed.

Lemma slice_last_twice (k n : nat) l :
  k <= n -> slice_last k (slice_last n l) = slice_last k l.
Proof.
  intros H. unfold slice_last.
  rewrite skipn_skipn, length_skipn. f_equal. lia.
Qed.

Lemma slice_last_map {B : Type} (f : A -> B) (n : nat) l :
  slice_last n (map f l) = map f (slice_last n l).
Proof. unfold slice_last. now rewrite length_map, skipn_map. Qed.

End SliceFacts.

Lemma push_log_slice (e : LogEntry.t) (l : list LogEntry.t) :
  push_log e l = slice_last 100 (l ++ [e]).
Proof.
  unfold push_log. cbv zeta.
  destruct (Nat.ltb_spec 100 (length (l ++ [e]))); [reflexivity|].
  symmetry. now apply slice_last_short.
Qed.

Lemma append_all_app (l a b : list LogEntry.t) :
  append_all l (a ++ b) = append_all (append_all l a) b.
Proof. apply fold_left_app. Qed.

Lemma append_all_bounded (es l : list LogEntry.t) :
  length l <= 100 -> append_all l es = slice_last 100 (l ++ es).
Proof.
  revert l. induction es as [|e es IH]; intros l Hl.
  - cbn. rewrite app_nil_r. symmetry. now apply slice_last_short.
  - cbn [append_all fold_left]. fold (append_all (push_log e l) es).
    rewrite IH.
    + rewrite push_log_slice, slice_last_app_absorb, <- app_assoc. reflexivity.
    + rewrite push_log_slice, slice_last_length. lia.
Qed.

Lemma append_all_cons (e : LogEntry.t) (es l : list LogEntry.t) :
  append_all l (e :: es) = slice_last 100 (l ++ e :: es).
Proof.
  cbn [append_all fold_left]. fold (append_all (push_log e l) es).
  rewrite append_all_bounded.
  - rewrite push_log_slice, slice_last_app_absorb, <- app_assoc. reflexivity.
  - rewrite push_log_slice, slice_last_length. lia.
Qed.

Lemma logged_app (a b : list Effect) : logged (a ++ b) = logged a ++ logged b.
Proof.
  induction a as [|[] a IH]; cbn; rewrite ?IH; reflexivity.
Qed.

(** What one [addLog] does to the state. *)
Lemma addLog_run (w : World) (message : string) (level : Level) (st : State) :
  run (addLog w message level) st
  = (Ok tt,
     mkState (push_log (entry_at w (ticks st) (message, level)) (logs st))
             (console st
              ++ [("[" ++ toUpperCase (level_name level) ++ "] " ++ message)%string])
             (trace st ++ [Logged (entry_at w (ticks st) (message, level))])
             (S (ticks st))).
Proof. reflexivity. Qed.

Lemma record_all_run (w : World) (ms : list (string * Level)) :
  forall st,
    fst (run (record_all w ms) st) = Ok tt
    /\ logs (snd (run (record_all w ms) st))
       = append_all (logs st) (stamped w (ticks st) ms)
    /\ trace (snd (run (record_all w ms) st))
       = trace st ++ map Logged (stamped w (ticks st) ms).
Proof.
  induction ms as [|[message level] ms IH]; intros st.
  - cbn. now rewrite app_nil_r.
  - cbn [record_all]. unfold run, bind.
    change (addLog w message level st) with (run (addLog w message level) st).
    rewrite addLog_run.
    destruct (IH (mkState (push_log (entry_at w (ticks st) (message, level)) (logs st))
             (console st
              ++ [("[" ++ toUpperCase (level_name level) ++ "] " ++ message)%string])
             (trace st ++ [Logged (entry_at w (ticks st) (message, level))])
             (S (ticks st)))) as (H1 & H2 & H3).
    unfold run in *. split; [exact H1|]. split.
    + rewrite H2. reflexivity.
    + rewrite H3. cbn. rewrite <- app_assoc. reflexivity.
Qed.

Lemma stamped_length (w : World) (ms : list (string * Level)) :
  forall t, length (stamped w t ms) = length ms.
Proof. induction ms as [|ml ms IH]; intros t; cbn; [|rewrite IH]; reflexivity. Qed.

Lemma recorded_logs (w : World) (ms : list (string * Level)) :
  logs (recorded w ms) = slice_last 100 (stamped w 0 ms).
Proof.
  unfold recorded.
  destruct (record_all_run w ms initial) as (_ & H & _).
  rewrite H. cbn [initial logs ticks].
  now rewrite append_all_bounded by (cbn; lia).
Qed.

Lemma stamped_map_seq (w : World) (f : nat -> string * Level) (n : nat) :
  forall t,
    stamped w t (map f (seq t n)) = map (fun i => entry_at w i (f i)) (seq t n).
Proof.
  induction n as [|n IH]; intros t; cbn; [reflexivity|]. now rewrite IH.
Qed.

(** C4.  The log buffer never holds more than 100 entries: whatever the
    buffer was, one [addLog] leaves the last 100 of the old entries followed
    by the new one; after any sequence of appends since start-up the buffer
    is the last 100 of the entries appended, in the order they were
    appended; and after 150 appends it is exactly the entries 50 to 149. *)
Theorem log_buffer_keeps_last_100 (w : World) :
  (forall message level st,
      let st' := snd (run (addLog w message level) st) in
      length (logs st') <= 100
      /\ logs st'
         = slice_last 100 (logs st ++ [entry_at w (ticks st) (message, level)]))
  /\ (forall ms,
         length (logs (recorded w ms)) <= 100
         /\ logs (recorded w ms) = slice_last 100 (stamped w 0 ms))
  /\ (forall f : nat -> string * Level,
         logs (recorded w (map f (seq 0 150)))
         = map (fun i => entry_at w i (f i)) (seq 50 100)).
Proof.
  split; [|split].
  - intros message level st st'. subst st'. rewrite addLog_run.
    cbn [snd logs]. rewrite push_log_slice. split; [|reflexivity].
    rewrite slice_last_length. lia.
  - intros ms. rewrite recorded_logs. split; [|reflexivity].
    rewrite slice_last_length. lia.
  - intros f. rewrite recorded_logs, stamped_map_seq, slice_last_map.
    reflexivity.
Qed.

(** C3, as the code has it.  In every state GET /logs answers HTTP 200 with
    the last 50 entries of the buffer (so at most 50) and with [total] the
    number of entries the buffer holds, and leaves the state as it is.
    After any sequence of appends since start-up these are the last 50
    entries appended, and [total] is the number appended up to 100 and 100
    from then on. *)
Theorem get_logs_last_50_and_buffer_size (w : World) :
  (forall st,
      run get_logs st
      = (Ok (mkResponse 200
               (Json_body
                  (JObj [("logs", JArr (map LogEntry.to_json (slice_last 50 (logs st))));
                         ("total", JNum (Z.of_nat (length (logs st))))]))),
         st)
      /\ length (slice_last 50 (logs st)) <= 50)
  /\ (forall ms,
         slice_last 50 (logs (recorded w ms)) = slice_last 50 (stamped w 0 ms)
         /\ logs_total (recorded w ms)
            = Some (Z.of_nat (Nat.min (length ms) 100))).
Proof.
  split.
  - intros st. split; [reflexivity|]. rewrite slice_last_length. lia.
  - intros ms. rewrite recorded_logs. split.
    + apply slice_last_twice. lia.
    + unfold logs_total, answer, run, get_logs. cbn [fst response_total sent res_json].
      rewrite recorded_logs, slice_last_length, stamped_length.
      now rewrite (Nat.min_comm 100).
Qed.

(** C3 as stated fails: after 150 appends [total] is 100, not 150. *)
Lemma logs_total_is_not_cumulative :
  let ms := Sample.messages 150 in
  let st := recorded (Sample.up Sample.intent_failed) ms in
  length ms = 150
  /\ logs_total st = Some 100%Z
  /\ logs_total st <> Some (Z.of_nat (length ms)).
Proof. vm_compute. repeat split. discriminate. Qed.

(** ** Rules for running computations *)

Section Rules.

Context {A : Type}.
Implicit Types (st : State) (Q : Result A -> list Effect -> Prop).

Lemma outcome_weaken (m : M A) st (P : Result A -> list Effect -> Prop) Q :
  outcome m st P -> (forall r new, P r new -> Q r new) -> outcome m st Q.
Proof.
  intros (r & st' & new & Hr & Ht & Hl & HP) H.
  exists r, st', new. auto.
Qed.

Lemma outcome_ret (a : A) st Q : Q (Ok a) [] -> outcome (ret a) st Q.
Proof.
  intros H. exists (Ok a), st, []. cbn. now rewrite app_nil_r.
Qed.

Lemma outcome_throw (e : Error) st Q : Q (Throw e) [] -> outcome (throw e) st Q.
Proof.
  intros H. exists (Throw e), st, []. cbn. now rewrite app_nil_r.
Qed.

Lemma outcome_eval (o : Result A) st Q : Q o [] -> outcome (eval o) st Q.
Proof.
  intros H. exists o, st, []. cbn. now rewrite app_nil_r.
Qed.

Lemma outcome_await (ef : Effect) (o : Result A) st Q :
  logged [ef] = [] -> Q o [ef] -> outcome (await ef o) st Q.
Proof.
  intros Hef H.
  exists o, (mkState (logs st) (console st) (trace st ++ [ef]) (ticks st)), [ef].
  rewrite Hef. cbn. auto.
Qed.

Lemma outcome_bind {B : Type} (m : M B) (k : B -> M A) st Q :
  outcome m st
          (fun r new1 =>
             match r with
             | Ok b => forall st', outcome (k b) st' (fun r' new2 => Q r' (new1 ++ new2))
             | Throw e => Q (Throw e) new1
             end) ->
  outcome (bind m k) st Q.
Proof.
  intros (r & st1 & new1 & Hr & Ht & Hl & H). unfold run in Hr.
  destruct r as [b|e].
  - destruct (H st1) as (r' & st2 & new2 & Hr' & Ht' & Hl' & H').
    exists r', st2, (new1 ++ new2). unfold run, bind in *. rewrite Hr, Hr'.
    rewrite Ht', Ht, Hl', Hl, logged_app, append_all_app, app_assoc. auto.
  - exists (Throw e), st1, new1. unfold run, bind. rewrite Hr. auto.
Qed.

Lemma outcome_try_catch (m : M A) (h : Error -> M A) st Q :
  outcome m st
          (fun r new1 =>
             match r with
             | Ok a => Q (Ok a) new1
             | Throw e => forall st', outcome (h e) st' (fun r' new2 => Q r' (new1 ++ new2))
             end) ->
  outcome (try_catch m h) st Q.
Proof.
  intros (r & st1 & new1 & Hr & Ht & Hl & H). unfold run in Hr.
  destruct r as [a|e].
  - exists (Ok a), st1, new1. unfold run, try_catch. rewrite Hr. auto.
  - destruct (H st1) as (r' & st2 & new2 & Hr' & Ht' & Hl' & H').
    exists r', st2, (new1 ++ new2). unfold run, try_catch in *. rewrite Hr, Hr'.
    rewrite Ht', Ht, Hl', Hl, logged_app, append_all_app, app_assoc. auto.
Qed.

End Rules.

Lemma outcome_emit (ef : Effect) (st : State) (Q : Result unit -> list Effect -> Prop) :
  logged [ef] = [] -> Q (Ok tt) [ef] -> outcome (emit ef) st Q.
Proof.
  intros Hef H.
  exists (Ok tt), (mkState (logs st) (console st) (trace st ++ [ef]) (ticks st)), [ef].
  rewrite Hef. cbn. auto.
Qed.

Lemma outcome_Date_new (w : World) (st : State)
      (Q : Result Instant -> list Effect -> Prop) :
  (forall date, Q (Ok date) []) -> outcome (Date_new w) st Q.
Proof.
  intros H.
  exists (Ok (clock w (ticks st))),
         (mkState (logs st) (console st) (trace st) (S (ticks st))), [].
  cbn. rewrite app_nil_r. auto.
Qed.

(** [addLog] returns, and adds one entry of the given level and message. *)
Lemma outcome_addLog (w : World) (message : string) (level : Level) (st : State)
      (Q : Result unit -> list Effect -> Prop) :
  (forall timestamp, Q (Ok tt) [Logged (LogEntry.mk timestamp level message)]) ->
  outcome (addLog w message level) st Q.
Proof.
  intros H. eexists _, _, _. rewrite addLog_run.
  split; [reflexivity|]. cbn [trace logs]. split; [reflexivity|].
  split; [reflexivity|]. apply H.
Qed.

(** One step of symbolic execution. *)
Ltac step :=
  lazymatch goal with
  | |- outcome (bind _ _) _ _ => apply outcome_bind
  | |- outcome (try_catch _ _) _ _ => apply outcome_try_catch
  | |- outcome (ret _) _ _ => apply outcome_ret
  | |- outcome (throw _) _ _ => apply outcome_throw
  | |- outcome (eval _) _ _ => apply outcome_eval
  | |- outcome (await _ _) _ _ => apply outcome_await; [reflexivity|]
  | |- outcome (emit _) _ _ => apply outcome_emit; [reflexivity|]
  | |- outcome (addLog _ _ _) _ _ => apply outcome_addLog; intros ?
  | |- outcome (Date_new _) _ _ => apply outcome_Date_new; intros ?
  | |- outcome (if ?b then _ else _) _ _ =>
      first [ let v := eval cbv in b in
              lazymatch v with
              | true => change b with true
              | false => change b with false
              end
            | destruct b eqn:? ]
  | |- outcome (match ?o with Some _ => _ | None => _ end) _ _ => destruct o eqn:?
  | |- outcome (let x := _ in _) _ _ => cbv zeta
  | |- forall _ : State, _ => intros ?
  | |- match ?o with Ok _ => _ | Throw _ => _ end =>
      first [ progress cbv beta iota | destruct o eqn:? ]
  end.

(** A call of a helper whose outcome is known; extended below as the
    helpers are specified. *)
Ltac helper := fail.

(** What the hypotheses say of a test or of an outbound call is used. *)
Ltac known :=
  match goal with
  | H : ?l = _ |- outcome ?m _ _ =>
      lazymatch m with context [l] => rewrite H end
  | H : ?l = _ |- match ?o with Ok _ => _ | Throw _ => _ end =>
      lazymatch o with context [l] => rewrite H end
  end.

Ltac steps := repeat (first [known | step | helper]; cbv beta iota).

(** ** The helpers *)

(** [sendEmailAlert] never throws: it hands the mail to the transport and
    logs the outcome, at [error] when the transport failed. *)
Lemma sendEmailAlert_outcome (w : World) (pd : PaymentData.t) (st : State) :
  outcome (sendEmailAlert w pd) st
          (fun r new =>
             r = Ok tt
             /\ exists e,
                 new = [Call_sendEmailAlert pd; SendMail (alert_mail w pd); Logged e]
                 /\ LogEntry.level e
                    = if ok (sendMail w (alert_mail w pd)) then info else error).
Proof.
  unfold sendEmailAlert. steps.
  all: split; [reflexivity|]; eexists; split; reflexivity.
Qed.

Ltac helper ::=
  lazymatch goal with
  | |- outcome (sendEmailAlert _ _) _ _ =>
      eapply outcome_weaken;
      [apply sendEmailAlert_outcome | intros ? ? (-> & ? & -> & ?)]
  end.

(** [logToAirtable] never throws: it asks for the row to be created and
    logs the outcome, with the schema guidance after a failure. *)
Lemma logToAirtable_outcome (w : World) (pd : PaymentData.t) (st : State) :
  outcome (logToAirtable w pd) st
          (fun r new =>
             r = Ok tt
             /\ exists rest,
                 new = Call_logToAirtable pd
                       :: AirtableCreate "Failed Payments" (airtable_record pd)
                       :: rest
                 /\ only_logs rest = true).
Proof.
  unfold logToAirtable. steps.
  all: split; [reflexivity|]; eexists; split; reflexivity.
Qed.

Ltac helper ::=
  lazymatch goal with
  | |- outcome (sendEmailAlert _ _) _ _ =>
      eapply outcome_weaken;
      [apply sendEmailAlert_outcome | intros ? ? (-> & ? & -> & ?)]
  | |- outcome (logToAirtable _ _) _ _ =>
      eapply outcome_weaken;
      [apply logToAirtable_outcome | intros ? ? (-> & ? & -> & ?)]
  end.

(** [processFailedPayment] never throws.  It looks the customer up when
    there is one, then logs, notifies and records, in that order, whatever
    the lookup gave. *)
Lemma processFailedPayment_outcome (w : World) (paymentIntent : Stripe.Object)
      (st : State) :
  outcome (processFailedPayment w paymentIntent) st
          (fun r new =>
             r = Ok tt
             /\ exists customerEmail timestamp lookup e1 e2 rest,
                 let pd :=
                   PaymentData.mk (Stripe.id paymentIntent)
                                  (Stripe.customer paymentIntent)
                                  customerEmail
                                  (Stripe.amount paymentIntent)
                                  (Stripe.currency paymentIntent)
                                  (or_else (last_payment_error_message paymentIntent)
                                           "Unknown error")
                                  timestamp in
                 new = lookup
                       ++ [Logged e1; Call_sendEmailAlert pd;
                           SendMail (alert_mail w pd); Logged e2;
                           Call_logToAirtable pd;
                           AirtableCreate "Failed Payments" (airtable_record pd)]
                       ++ rest
                 /\ only_logs rest = true
                 /\ match if_truthy (Stripe.customer paymentIntent) with
                    | None => lookup = [] /\ customerEmail = None
                    | Some cus =>
                        match customers_retrieve w cus with
                        | Ok customer =>
                            lookup = [CustomersRetrieve cus]
                            /\ customerEmail = Stripe.customer_email customer
                        | Throw err =>
                            customerEmail = None
                            /\ exists ts,
                                lookup
                                = [CustomersRetrieve cus;
                                   Logged (LogEntry.mk ts warn
                                             ("Could not retrieve customer email: "
                                              ++ message err))]
                        end
                    end).
Proof.
  unfold processFailedPayment. steps.
  all: unfold PaymentData.set_customerEmail;
    cbn [PaymentData.paymentId PaymentData.customerId PaymentData.customerEmail
         PaymentData.amount PaymentData.currency PaymentData.failureReason
         PaymentData.timestamp];
    (split; [reflexivity|]);
    try match goal with H : customers_retrieve _ _ = _ |- _ => rewrite H end.
  - eexists _, _, [_], _, _, _. cbn [app].
    split; [reflexivity|]. split; [assumption|]. split; reflexivity.
  - eexists _, _, [_; _], _, _, _. cbn [app].
    split; [reflexivity|]. split; [assumption|].
    split; [reflexivity|]. eexists. reflexivity.
  - eexists _, _, [], _, _, _. cbn [app].
    split; [reflexivity|]. split; [assumption|]. split; reflexivity.
Qed.

Ltac helper ::=
  lazymatch goal with
  | |- outcome (sendEmailAlert _ _) _ _ =>
      eapply outcome_weaken;
      [apply sendEmailAlert_outcome | intros ? ? (-> & ? & -> & ?)]
  | |- outcome (logToAirtable _ _) _ _ =>
      eapply outcome_weaken;
      [apply logToAirtable_outcome | intros ? ? (-> & ? & -> & ?)]
  | |- outcome (processFailedPayment _ _) _ _ =>
      eapply outcome_weaken;
      [apply processFailedPayment_outcome
      | intros ? ? (-> & ? & ? & ? & ? & ? & ? & -> & ? & ?)]
  end.

(** ** The webhook route *)

(** C1.  When the signature of a POST /webhook request verifies, the
    handler answers HTTP 200 with [{received: true}], whatever the event is
    and whatever the outbound calls (customer lookup, payment-intent fetch,
    mail, record store) do. *)
Theorem verified_webhook_is_acknowledged
        (w : World) (req : Request) (event : Stripe.Event) (st : State) :
  constructEvent w (body req) (headers req "stripe-signature")
                 (env w "STRIPE_WEBHOOK_SECRET") = Ok event ->
  outcome (post_webhook w req) st (fun r _ => r = Ok received).
Proof.
  intros Hsig. unfold post_webhook. steps. all: reflexivity.
Qed.

Lemma verified_webhook_is_acknowledged_witness :
  let w := Sample.down Sample.charge_failed in
  constructEvent w (body Sample.signed) (headers Sample.signed "stripe-signature")
                 (env w "STRIPE_WEBHOOK_SECRET") = Ok Sample.charge_failed
  /\ outcome (post_webhook w Sample.signed) initial (fun r _ => r = Ok received).
Proof.
  split; [reflexivity|].
  apply (verified_webhook_is_acknowledged
           (Sample.down Sample.charge_failed) Sample.signed Sample.charge_failed).
  reflexivity.
Defined.

(** C2.  When the signature of a POST /webhook request does not verify, the
    handler answers HTTP 400 with the plain text "Webhook Error: ..." and
    does one thing only: it logs the failure at [error].  In particular the
    notifier and the record logger are not called. *)
Theorem bad_signature_is_rejected
        (w : World) (req : Request) (err : Error) (st : State) :
  constructEvent w (body req) (headers req "stripe-signature")
                 (env w "STRIPE_WEBHOOK_SECRET") = Throw err ->
  outcome (post_webhook w req) st
          (fun r new =>
             r = Ok (mkResponse 400 (Text_body ("Webhook Error: " ++ message err)))
             /\ (exists timestamp,
                    new = [Logged (LogEntry.mk timestamp error
                                     ("Webhook signature verification failed: "
                                      ++ message err))])
             /\ count (is_log_at error) new = 1
             /\ count is_notifier_call new = 0
             /\ count is_record_logger_call new = 0).
Proof.
  intros Hsig. unfold post_webhook. steps.
  split; [reflexivity|]. split; [eexists; reflexivity|].
  repeat split.
Qed.

Lemma bad_signature_is_rejected_witness :
  let w := Sample.up Sample.intent_failed in
  let err := mkError "No stripe-signature header value was provided." in
  constructEvent w (body Sample.unsigned) (headers Sample.unsigned "stripe-signature")
                 (env w "STRIPE_WEBHOOK_SECRET") = Throw err
  /\ outcome (post_webhook w Sample.unsigned) initial
             (fun r new =>
                r = Ok (mkResponse 400 (Text_body ("Webhook Error: " ++ message err)))
                /\ (exists timestamp,
                       new = [Logged (LogEntry.mk timestamp error
                                        ("Webhook signature verification failed: "
                                         ++ message err))])
                /\ count (is_log_at error) new = 1
                /\ count is_notifier_call new = 0
                /\ count is_record_logger_call new = 0).
Proof.
  split; [reflexivity|].
  apply (bad_signature_is_rejected (Sample.up Sample.intent_failed) Sample.unsigned).
  reflexivity.
Defined.

(** C5.  For a verified invoice.payment_failed event whose invoice refers to
    a payment intent, when fetching that payment intent throws, the handler
    does exactly this: it logs the event at [info], makes the fetch, logs the
    failure at [error], and answers HTTP 200.  So one [error] entry is
    produced, and neither the notifier nor the record logger is called. *)
Theorem invoice_fetch_failure_is_logged_and_acknowledged
        (w : World) (req : Request) (event : Stripe.Event) (pi : string)
        (err : Error) (st : State) :
  constructEvent w (body req) (headers req "stripe-signature")
                 (env w "STRIPE_WEBHOOK_SECRET") = Ok event ->
  Stripe.type event = "invoice.payment_failed" ->
  if_truthy (Stripe.payment_intent (Stripe.data_object event)) = Some pi ->
  paymentIntents_retrieve w pi = Throw err ->
  outcome (post_webhook w req) st
          (fun r new =>
             r = Ok received
             /\ (exists t1 t2,
                    new = [Logged (LogEntry.mk t1 info
                                     "Received webhook event: invoice.payment_failed");
                           PaymentIntentsRetrieve pi;
                           Logged (LogEntry.mk t2 error
                                     ("Error processing invoice payment failure: "
                                      ++ message err))])
             /\ count (is_log_at error) new = 1
             /\ count is_notifier_call new = 0
             /\ count is_record_logger_call new = 0).
Proof.
  intros Hsig Htype Hpi Hfetch. unfold post_webhook. steps.
  split; [reflexivity|]. split; [do 2 eexists; reflexivity|].
  repeat split.
Qed.

Lemma invoice_fetch_failure_is_logged_and_acknowledged_witness :
  let w := Sample.down Sample.invoice_failed in
  let err := mkError "No such payment_intent" in
  (constructEvent w (body Sample.signed) (headers Sample.signed "stripe-signature")
                  (env w "STRIPE_WEBHOOK_SECRET") = Ok Sample.invoice_failed
   /\ Stripe.type Sample.invoice_failed = "invoice.payment_failed"
   /\ if_truthy (Stripe.payment_intent (Stripe.data_object Sample.invoice_failed))
      = Some "pi_123"
   /\ paymentIntents_retrieve w "pi_123" = Throw err)
  /\ outcome (post_webhook w Sample.signed) initial
             (fun r new =>
                r = Ok received
                /\ (exists t1 t2,
                       new = [Logged (LogEntry.mk t1 info
                                        "Received webhook event: invoice.payment_failed");
                              PaymentIntentsRetrieve "pi_123";
                              Logged (LogEntry.mk t2 error
                                        ("Error processing invoice payment failure: "
                                         ++ message err))])
                /\ count (is_log_at error) new = 1
                /\ count is_notifier_call new = 0
                /\ count is_record_logger_call new = 0).
Proof.
  split; [repeat split|].
  apply (invoice_fetch_failure_is_logged_and_acknowledged
           (Sample.down Sample.invoice_failed) Sample.signed Sample.invoice_failed
           "pi_123" (mkError "No such payment_intent") initial);
    reflexivity.
Defined.

(** C10.  For a verified invoice.payment_failed event whose invoice has no
    payment-intent reference, the handler logs the event at [info] and
    answers HTTP 200 with [{received: true}]; it does nothing else: no
    provider fetch, no notifier or record-logger call, no [error] entry. *)
Theorem invoice_without_payment_intent_is_only_acknowledged
        (w : World) (req : Request) (event : Stripe.Event) (st : State) :
  constructEvent w (body req) (headers req "stripe-signature")
                 (env w "STRIPE_WEBHOOK_SECRET") = Ok event ->
  Stripe.type event = "invoice.payment_failed" ->
  if_truthy (Stripe.payment_intent (Stripe.data_object event)) = None ->
  outcome (post_webhook w req) st
          (fun r new =>
             r = Ok received
             /\ (exists timestamp,
                    new = [Logged (LogEntry.mk timestamp info
                                     "Received webhook event: invoice.payment_failed")])
             /\ count is_provider_fetch new = 0
             /\ count is_notifier_call new = 0
             /\ count is_record_logger_call new = 0
             /\ count (is_log_at error) new = 0).
Proof.
  intros Hsig Htype Hpi. unfold post_webhook. steps.
  split; [reflexivity|]. split; [eexists; reflexivity|].
  repeat split.
Qed.

Lemma invoice_without_payment_intent_is_only_acknowledged_witness :
  let w := Sample.up Sample.invoice_without_intent in
  (constructEvent w (body Sample.signed) (headers Sample.signed "stripe-signature")
                  (env w "STRIPE_WEBHOOK_SECRET") = Ok Sample.invoice_without_intent
   /\ Stripe.type Sample.invoice_without_intent = "invoice.payment_failed"
   /\ if_truthy (Stripe.payment_intent
                   (Stripe.data_object Sample.invoice_without_intent)) = None)
  /\ outcome (post_webhook w Sample.signed) initial
             (fun r new =>
                r = Ok received
                /\ (exists timestamp,
                       new = [Logged (LogEntry.mk timestamp info
                                        "Received webhook event: invoice.payment_failed")])
                /\ count is_provider_fetch new = 0
                /\ count is_notifier_call new = 0
                /\ count is_record_logger_call new = 0
                /\ count (is_log_at error) new = 0).
Proof.
  split; [repeat split|].
  apply (invoice_without_payment_intent_is_only_acknowledged
           (Sample.up Sample.invoice_without_intent) Sample.signed
           Sample.invoice_without_intent initial);
    reflexivity.
Defined.

(** ** Enrichment *)

(** C7.  When the payment intent names a customer and looking that customer
    up throws, [processFailedPayment] still returns: after the failed lookup
    it logs the failure at [warn], and then goes on as usual with a record
    whose [customerEmail] is absent -- it logs the payment, calls the
    notifier and then the record logger with that record. *)
Theorem customer_lookup_failure_does_not_abort
        (w : World) (paymentIntent : Stripe.Object) (cus : string)
        (err : Error) (st : State) :
  if_truthy (Stripe.customer paymentIntent) = Some cus ->
  customers_retrieve w cus = Throw err ->
  outcome (processFailedPayment w paymentIntent) st
          (fun r new =>
             r = Ok tt
             /\ exists pd t e1 e2 rest,
                 PaymentData.customerEmail pd = None
                 /\ PaymentData.customerId pd = Some cus
                 /\ PaymentData.paymentId pd = Stripe.id paymentIntent
                 /\ new = [CustomersRetrieve cus;
                           Logged (LogEntry.mk t warn
                                     ("Could not retrieve customer email: "
                                      ++ message err));
                           Logged e1;
                           Call_sendEmailAlert pd;
                           SendMail (alert_mail w pd);
                           Logged e2;
                           Call_logToAirtable pd;
                           AirtableCreate "Failed Payments" (airtable_record pd)]
                          ++ rest
                 /\ only_logs rest = true).
Proof.
  intros Hcus Hfetch.
  eapply outcome_weaken; [apply processFailedPayment_outcome|].
  intros r new (-> & email & ts & lookup & e1 & e2 & rest & Hnew & Hrest & Hlookup).
  rewrite Hcus, Hfetch in Hlookup. destruct Hlookup as (-> & t & ->).
  split; [reflexivity|].
  exists (PaymentData.mk (Stripe.id paymentIntent) (Stripe.customer paymentIntent)
                         None (Stripe.amount paymentIntent)
                         (Stripe.currency paymentIntent)
                         (or_else (last_payment_error_message paymentIntent)
                                  "Unknown error")
                         ts), t, e1, e2, rest.
  cbn [PaymentData.customerEmail PaymentData.customerId PaymentData.paymentId].
  split; [reflexivity|]. split.
  { unfold if_truthy in Hcus. destruct (Stripe.customer paymentIntent) as [[|c s]|];
      congruence. }
  split; [reflexivity|]. split; [exact Hnew | exact Hrest].
Qed.

Lemma customer_lookup_failure_does_not_abort_witness :
  let w := Sample.down Sample.intent_failed in
  let err := mkError "No such customer" in
  (if_truthy (Stripe.customer Sample.intent) = Some "cus_9"
   /\ customers_retrieve w "cus_9" = Throw err)
  /\ outcome (processFailedPayment w Sample.intent) initial
             (fun r new =>
                r = Ok tt
                /\ exists pd t e1 e2 rest,
                    PaymentData.customerEmail pd = None
                    /\ PaymentData.customerId pd = Some "cus_9"
                    /\ PaymentData.paymentId pd = Stripe.id Sample.intent
                    /\ new = [CustomersRetrieve "cus_9";
                              Logged (LogEntry.mk t warn
                                        ("Could not retrieve customer email: "
                                         ++ message err));
                              Logged e1;
                              Call_sendEmailAlert pd;
                              SendMail (alert_mail w pd);
                              Logged e2;
                              Call_logToAirtable pd;
                              AirtableCreate "Failed Payments" (airtable_record pd)]
                             ++ rest
                    /\ only_logs rest = true).
Proof.
  split; [split; reflexivity|].
  apply (customer_lookup_failure_does_not_abort
           (Sample.down Sample.intent_failed) Sample.intent "cus_9"
           (mkError "No such customer") initial);
    reflexivity.
Defined.

(** ** The manual test route *)

(** C8.  [sendEmailAlert] and [logToAirtable] return whatever the mail
    transport and the record store do, so POST /test always reaches the end of
    its [try] block: it answers HTTP 200 with [success: true] and the test
    record, after calling the notifier and the record logger with it.  The
    HTTP 500 answer of the [catch] block is never given. *)
Theorem manual_test_always_succeeds (w : World) (st : State) :
  (forall pd st0, outcome (sendEmailAlert w pd) st0 (fun r _ => r = Ok tt))
  /\ (forall pd st0, outcome (logToAirtable w pd) st0 (fun r _ => r = Ok tt))
  /\ outcome (post_test w) st
             (fun r new =>
                exists now date,
                  let testData :=
                    PaymentData.mk ("pi_test_" ++ Number.toString (millis now))
                                   (Some "cus_test_customer")
                                   (alert_recipient w)
                                   2500 "usd"
                                   "Test failure - insufficient funds"
                                   (toISOString date) in
                  r = Ok (mkResponse 200
                            (Json_body
                               (JObj [("success", JBool true);
                                      ("message",
                                       JStr "Test alert sent and logged successfully");
                                      ("testData", PaymentData.to_json testData)])))
                  /\ In (Call_sendEmailAlert testData) new
                  /\ In (Call_logToAirtable testData) new).
Proof.
  split; [|split].
  - intros pd st0. eapply outcome_weaken; [apply sendEmailAlert_outcome|].
    now intros r new [-> _].
  - intros pd st0. eapply outcome_weaken; [apply logToAirtable_outcome|].
    now intros r new [-> _].
  - unfold post_test. steps.
    match goal with
    | |- context [Number.toString (millis ?n)] =>
        match goal with
        | |- context [PaymentData.mk _ _ _ _ _ _ (toISOString ?d)] => exists n, d
        end
    end.
    cbv zeta. split; [reflexivity|]. cbn [app In]. split; auto 10.
Qed.

(** ** The health route *)

(** C9.  GET /health answers HTTP 200 with a [status] that is "unhealthy"
    exactly when the payment-provider check or the mail check fails; the
    record-store check decides [checks.airtable] only ("connected" or
    "table_needs_creation") and never the [status]. *)
Theorem health_status_ignores_record_store (w : World) (st : State) :
  outcome (get_health w) st
          (fun r _ =>
             exists timestamp,
               r = Ok (mkResponse 200
                         (Json_body
                            (Health.to_json
                               (Health.mk
                                  (if ok (balance_retrieve w) && ok (verify w)
                                   then "healthy" else "unhealthy")
                                  timestamp
                                  [("stripe",
                                    if ok (balance_retrieve w)
                                    then "connected" else "error");
                                   ("gmail",
                                    if ok (verify w) then "connected" else "error");
                                   ("airtable",
                                    if ok (firstPage w "Failed Payments")
                                    then "connected"
                                    else "table_needs_creation")]))))).
Proof.
  unfold get_health. steps. all: eexists; reflexivity.
Qed.

(** ** Rendering *)

Section ContainsFacts.

Local Open Scope string_scope.

Lemma append_assoc (a b c : string) : (a ++ b) ++ c = a ++ (b ++ c).
Proof. induction a as [|x a IH]; cbn; [reflexivity|]. now rewrite IH. Qed.

Lemma append_nil_r (a : string) : a ++ "" = a.
Proof. induction a as [|x a IH]; cbn; [reflexivity|]. now rewrite IH. Qed.

Lemma contains_refl (t : string) : contains t t.
Proof. exists "", "". cbn. now rewrite append_nil_r. Qed.

Lemma contains_app_r (p s t : string) : contains s t -> contains (p ++ s) t.
Proof.
  intros (a & b & ->). exists (p ++ a), b. now rewrite append_assoc.
Qed.

Lemma contains_app_l (s r t : string) : contains s t -> contains (s ++ r) t.
Proof.
  intros (a & b & ->). exists a, (b ++ r). now rewrite !append_assoc.
Qed.

End ContainsFacts.

Lemma alert_html_lines (pd : PaymentData.t) :
  contains (alert_html pd) (customer_line pd)
  /\ contains (alert_html pd) (amount_line pd)
  /\ contains (alert_html pd) (customer_id_line pd).
Proof.
  unfold alert_html. repeat split.
  - do 4 apply contains_app_r. apply contains_app_l, contains_refl.
  - do 7 apply contains_app_r. apply contains_app_l, contains_refl.
  - do 22 apply contains_app_r. apply contains_app_l, contains_refl.
Qed.

(** C6.  For a record whose amount is below [2^52] minor units in absolute
    value (the range in which the binary64 quotient by 100 is nearest to the
    exact one to the cent), the e-mail handed to the transport has the line
    "Amount: $d.dd CUR", where [d.dd] is the exact decimal expansion of the
    amount in hundredths and [CUR] the currency code in upper case; amount
    2500 with currency "usd" gives exactly "$25.00 USD"; an absent
    [customerEmail] is rendered "Unknown" and an absent [customerId]
    "N/A". *)
Theorem notifier_rendering (w : World) (pd : PaymentData.t) (st : State) :
  (Z.abs (PaymentData.amount pd) < 2 ^ 52)%Z ->
  outcome (sendEmailAlert w pd) st
          (fun _ new => In (SendMail (alert_mail w pd)) new)
  /\ amount_text pd
     = ("$" ++ Number.two_decimals (PaymentData.amount pd)
        ++ " " ++ toUpperCase (PaymentData.currency pd))%string
  /\ contains (html (alert_mail w pd))
              ("<p><strong>Amount:</strong> $"
               ++ Number.two_decimals (PaymentData.amount pd)
               ++ " " ++ toUpperCase (PaymentData.currency pd) ++ "</p>")
  /\ (forall id cid email reason ts,
         amount_text (PaymentData.mk id cid email 2500 "usd" reason ts)
         = "$25.00 USD"%string)
  /\ (forall id cid amount currency reason ts,
         contains (alert_html (PaymentData.mk id cid None amount currency reason ts))
                  "<p><strong>Customer:</strong> Unknown</p>")
  /\ (forall id email amount currency reason ts,
         contains (alert_html (PaymentData.mk id None email amount currency reason ts))
                  "<p><strong>Customer ID:</strong> N/A</p>").
Proof.
  intros Hamount.
  assert (Htext : amount_text pd
                  = ("$" ++ Number.two_decimals (PaymentData.amount pd)
                     ++ " " ++ toUpperCase (PaymentData.currency pd))%string).
  { unfold amount_text. now rewrite NumberFacts.toFixed2_div100. }
  split; [|split; [exact Htext|split; [|split; [|split]]]].
  - eapply outcome_weaken; [apply sendEmailAlert_outcome|].
    intros r new (_ & e & -> & _). cbn. auto.
  - cbn [html alert_mail].
    destruct (alert_html_lines pd) as (_ & H & _).
    unfold amount_line in H. rewrite Htext, !append_assoc in H. exact H.
  - reflexivity.
  - intros id cid amount currency reason ts.
    apply (alert_html_lines (PaymentData.mk id cid None amount currency reason ts)).
  - intros id email amount currency reason ts.
    apply (alert_html_lines (PaymentData.mk id None email amount currency reason ts)).
Qed.

Lemma notifier_rendering_witness :
  let pd := PaymentData.mk "ch_1" None None 2500 "usd" "Your card was declined."
                           "2025-08-29T22:29:33.000Z" in
  let w := Sample.up Sample.charge_failed in
  (Z.abs (PaymentData.amount pd) < 2 ^ 52)%Z
  /\ contains (html (alert_mail w pd))
              ("<p><strong>Amount:</strong> $"
               ++ Number.two_decimals (PaymentData.amount pd)
               ++ " " ++ toUpperCase (PaymentData.currency pd) ++ "</p>").
Proof.
  split; [reflexivity|].
  apply (notifier_rendering
           (Sample.up Sample.charge_failed)
           (PaymentData.mk "ch_1" None None 2500 "usd" "Your card was declined."
                           "2025-08-29T22:29:33.000Z")
           initial).
  reflexivity.
Defined.

(** The scenario of the specification, end to end: a verified charge.failed
    event of 2500 "usd" is acknowledged after a mail whose amount line reads
    "$25.00 USD" was handed to the transport and the row was handed to the
    record store. *)
Lemma charge_failed_alert
      (w : World) (req : Request) (event : Stripe.Event) (st : State) :
  constructEvent w (body req) (headers req "stripe-signature")
                 (env w "STRIPE_WEBHOOK_SECRET") = Ok event ->
  Stripe.type event = "charge.failed" ->
  Stripe.amount (Stripe.data_object event) = 2500%Z ->
  Stripe.currency (Stripe.data_object event) = "usd" ->
  outcome (post_webhook w req) st
          (fun r new =>
             r = Ok received
             /\ exists pd,
                 In (SendMail (alert_mail w pd)) new
                 /\ In (AirtableCreate "Failed Payments" (airtable_record pd)) new
                 /\ contains (html (alert_mail w pd))
                             "<p><strong>Amount:</strong> $25.00 USD</p>"
                 /\ In ("Amount", "25.00") (airtable_record pd)
                 /\ In ("Currency", "USD") (airtable_record pd)).
Proof.
  intros Hsig Htype Hamount Hcurrency. unfold post_webhook. steps.
  split; [reflexivity|].
  match goal with
  | |- context [SendMail (alert_mail w ?pd)] => exists pd
  end.
  cbn [app In]. split; [auto 10|]. split; [auto 10|]. split.
  - match goal with
    | |- contains (html (alert_mail w ?pd)) _ =>
        exact (proj1 (proj2 (alert_html_lines pd)))
    end.
  - unfold airtable_record. cbn [In PaymentData.amount PaymentData.currency].
    split; [do 3 right; left; reflexivity | do 4 right; left; reflexivity].
Qed.


(** * Further properties of the program *)

(** ** [includes] and [toString] *)

Section StringFacts.

Local Open Scope string_scope.

Lemma prefix_app (t b : string) : String.prefix t (t ++ b) = true.
Proof.
  induction t as [|c t IH]; cbn; [now destruct b|].
  destruct (ascii_dec c c) as [_|Hc]; [exact IH | now elim Hc].
Qed.

Lemma prefix_split (t s : string) :
  String.prefix t s = true -> exists b, s = t ++ b.
Proof.
  revert s. induction t as [|c t IH]; intros s H.
  - exists s. reflexivity.
  - destruct s as [|d s]; cbn in H; [discriminate|].
    destruct (ascii_dec c d) as [->|]; [|discriminate].
    destruct (IH s H) as [b ->]. exists b. reflexivity.
Qed.

(** [s.includes(t)] is true exactly when [t] occurs in [s]. *)
Lemma includes_contains (s t : string) : includes s t = true <-> contains s t.
Proof.
  split.
  - induction s as [|c s IH]; cbn [includes].
    + destruct (String.prefix t "") eqn:E; [|discriminate]. intros _.
      destruct (prefix_split _ _ E) as [b Hb]. exists "", b. exact Hb.
    + destruct (String.prefix t (String c s)) eqn:E.
      * intros _. destruct (prefix_split _ _ E) as [b Hb]. exists "", b. exact Hb.
      * intros H. destruct (IH H) as (a & b & ->).
        exists (String c a), b. reflexivity.
  - intros (a & b & ->). induction a as [|c a IH].
    + cbn [append]. destruct t as [|d t]; [now destruct b|].
      cbn [append includes].
      change (String d (t ++ b)) with (String d t ++ b).
      now rewrite prefix_app.
    + cbn [append includes]. rewrite IH.
      now destruct (String.prefix t (String c (a ++ t ++ b))).
Qed.

End StringFacts.

Section DigitsFacts.

Local Open Scope Z_scope.

Lemma digits_value_snoc (l : list ascii) (c : ascii) :
  digits_value (l ++ [c])
  = 10 * digits_value l + (Z.of_nat (nat_of_ascii c) - 48).
Proof. unfold digits_value. now rewrite fold_left_app. Qed.

Lemma digit_code (d : Z) :
  0 <= d < 10 -> Z.of_nat (nat_of_ascii (Number.digit d)) - 48 = d.
Proof.
  intros H. unfold Number.digit.
  rewrite nat_ascii_embedding by lia. lia.
Qed.

(** The digits printed for a non-negative integer read back as it. *)
Lemma digits_value_digits (n : Z) :
  0 <= n -> digits_value (Number.digits n) = n.
Proof.
  revert n. apply (Zlt_0_ind (fun n => digits_value (Number.digits n) = n)).
  intros n IH Hn.
  destruct (Z.lt_ge_cases n 10) as [Hlt|Hge].
  - rewrite NumberFacts.digits_lt_10 by lia.
    change (digits_value [Number.digit n])
      with (10 * 0 + (Z.of_nat (nat_of_ascii (Number.digit n)) - 48)).
    rewrite digit_code; lia.
  - rewrite NumberFacts.digits_step, digits_value_snoc by lia.
    assert (0 <= n / 10 < n) by (split; [apply Z.div_pos | apply Z.div_lt]; lia).
    rewrite IH by lia.
    rewrite digit_code by (apply Z.mod_pos_bound; lia).
    pose proof (Z.div_mod n 10 ltac:(lia)). lia.
Qed.


End DigitsFacts.



(** ** Counting effects *)

Lemma count_app (p : Effect -> bool) (a b : list Effect) :
  count p (a ++ b) = count p a + count p b.
Proof. unfold count. now rewrite filter_app, length_app. Qed.

Lemma count_cons (p : Effect -> bool) (ef : Effect) (l : list Effect) :
  count p (ef :: l) = (if p ef then 1 else 0) + count p l.
Proof. unfold count. cbn. now destruct (p ef). Qed.

Lemma count_nil (p : Effect -> bool) : count p [] = 0.
Proof. reflexivity. Qed.

Lemma count_zero_of_forallb (p q : Effect -> bool) (l : list Effect) :
  (forall ef, q ef = true -> p ef = false) ->
  forallb q l = true -> count p l = 0.
Proof.
  intros Hpq. induction l as [|ef l IH]; cbn [forallb]; [reflexivity|].
  intros H. apply andb_true_iff in H as [Hq Hl].
  rewrite count_cons, (Hpq ef Hq), IH by assumption. reflexivity.
Qed.

Ltac count_split :=
  repeat first [rewrite count_app | rewrite count_cons | rewrite count_nil].

(** Log entries at [warn] are no mail, no row, no fetch and no entry at
    [error]. *)
Lemma warn_only_counts (g : list Effect) :
  forallb (is_log_at warn) g = true ->
  count is_mail_sent g = 0
  /\ count is_row_created g = 0
  /\ count is_provider_fetch g = 0
  /\ count is_outbound g = 0
  /\ count (is_log_at error) g = 0.
Proof.
  intros H.
  repeat split; apply (count_zero_of_forallb _ (is_log_at warn)); try exact H;
    intros [e| | | | | | | | |]; cbn; try discriminate; try reflexivity;
    destruct (LogEntry.level e); cbn; intros; try discriminate; reflexivity.
Qed.

(** The customer lookup sends no mail and creates no row. *)
Lemma lookup_counts (l : list Effect) :
  forallb is_lookup l = true ->
  count is_mail_sent l = 0 /\ count is_row_created l = 0.
Proof.
  intros H.
  split; apply (count_zero_of_forallb _ is_lookup); try exact H;
    intros []; cbn; try discriminate; reflexivity.
Qed.

(** ** The helpers, entry by entry *)

Lemma sendEmailAlert_exact (w : World) (pd : PaymentData.t) (st : State) :
  outcome (sendEmailAlert w pd) st
          (fun r new =>
             r = Ok tt
             /\ exists t,
                 new = [Call_sendEmailAlert pd;
                        SendMail (alert_mail w pd);
                        Logged (LogEntry.mk t (fst (mail_log w pd))
                                            (snd (mail_log w pd)))]).
Proof.
  unfold sendEmailAlert, mail_log. steps.
  all: split; [reflexivity|]; eexists; reflexivity.
Qed.

Lemma logToAirtable_exact (w : World) (pd : PaymentData.t) (st : State) :
  outcome (logToAirtable w pd) st
          (fun r new =>
             r = Ok tt
             /\ exists t guidance,
                 new = Call_logToAirtable pd
                       :: AirtableCreate "Failed Payments" (airtable_record pd)
                       :: Logged (LogEntry.mk t (fst (row_log w pd))
                                              (snd (row_log w pd)))
                       :: guidance
                 /\ forallb (is_log_at warn) guidance = true
                 /\ length guidance = guidance_length w pd).
Proof.
  unfold logToAirtable, row_log, guidance_length. steps.
  all: split; [reflexivity|]; do 2 eexists;
    (split; [reflexivity | split; reflexivity]).
Qed.

(** The notifier, then the record logger. *)
Lemma notify_then_record (w : World) (pd : PaymentData.t) (st : State) :
  outcome (bind (sendEmailAlert w pd) (fun _ => logToAirtable w pd)) st
          (fun r new => r = Ok tt /\ notified_and_recorded w pd new).
Proof.
  apply outcome_bind.
  eapply outcome_weaken; [apply sendEmailAlert_exact|].
  intros r new (-> & t1 & ->). intros st'.
  eapply outcome_weaken; [apply logToAirtable_exact|].
  intros r new (-> & t2 & guidance & -> & Hwarn & Hlen).
  split; [reflexivity|]. exists t1, t2, guidance. auto.
Qed.

Lemma notified_and_recorded_counts (w : World) (pd : PaymentData.t)
      (new : list Effect) :
  notified_and_recorded w pd new ->
  count is_mail_sent new = 1
  /\ count is_row_created new = 1
  /\ count is_provider_fetch new = 0
  /\ count (is_log_at error) new
     = (if ok (sendMail w (alert_mail w pd)) then 0 else 1)
       + (if ok (create w "Failed Payments" (airtable_record pd)) then 0 else 1).
Proof.
  intros (t1 & t2 & guidance & -> & Hwarn & _).
  rewrite !count_app.
  destruct (warn_only_counts guidance Hwarn) as (H1 & H2 & H3 & _ & H4).
  rewrite H1, H2, H3, H4. unfold mail_log, row_log.
  destruct (sendMail w (alert_mail w pd)),
           (create w "Failed Payments" (airtable_record pd));
    repeat split.
Qed.

Ltac helper_exact :=
  lazymatch goal with
  | |- outcome (bind (sendEmailAlert _ _) (fun _ => logToAirtable _ _)) _ _ =>
      eapply outcome_weaken;
      [apply notify_then_record | intros ? ? (-> & ?)]
  | |- outcome (sendEmailAlert _ _) _ _ =>
      eapply outcome_weaken;
      [apply sendEmailAlert_exact | intros ? ? (-> & ? & ->)]
  | |- outcome (logToAirtable _ _) _ _ =>
      eapply outcome_weaken;
      [apply logToAirtable_exact | intros ? ? (-> & ? & ? & -> & ? & ?)]
  end.

Ltac steps_exact := repeat (first [known | helper_exact | step]; cbv beta iota).

Ltac simpl_record :=
  unfold PaymentData.set_customerEmail;
  cbn [PaymentData.paymentId PaymentData.customerId PaymentData.customerEmail
       PaymentData.amount PaymentData.currency PaymentData.failureReason
       PaymentData.timestamp].

(** [processFailedPayment], entry by entry: the customer lookup, the
    "Processing failed payment" entry, then the notifier and the record
    logger on the record built from the payment intent. *)
Lemma processFailedPayment_exact (w : World) (paymentIntent : Stripe.Object)
      (st : State) :
  outcome (processFailedPayment w paymentIntent) st
          (fun r new =>
             r = Ok tt
             /\ exists customerEmail timestamp lookup t rest,
                 let pd :=
                   PaymentData.mk (Stripe.id paymentIntent)
                                  (Stripe.customer paymentIntent)
                                  customerEmail
                                  (Stripe.amount paymentIntent)
                                  (Stripe.currency paymentIntent)
                                  (or_else (last_payment_error_message paymentIntent)
                                           "Unknown error")
                                  timestamp in
                 new = lookup
                       ++ Logged (LogEntry.mk t info
                                    ("Processing failed payment: "
                                     ++ Stripe.id paymentIntent ++ " - $"
                                     ++ Number.toFixed2
                                          (Number.div100 (Stripe.amount paymentIntent))))
                       :: rest
                 /\ notified_and_recorded w pd rest
                 /\ forallb is_lookup lookup = true
                 /\ match if_truthy (Stripe.customer paymentIntent) with
                    | None => lookup = [] /\ customerEmail = None
                    | Some cus =>
                        match customers_retrieve w cus with
                        | Ok customer =>
                            lookup = [CustomersRetrieve cus]
                            /\ customerEmail = Stripe.customer_email customer
                        | Throw err =>
                            customerEmail = None
                            /\ exists ts,
                                lookup
                                = [CustomersRetrieve cus;
                                   Logged (LogEntry.mk ts warn
                                             ("Could not retrieve customer email: "
                                              ++ message err))]
                        end
                    end).
Proof.
  unfold processFailedPayment. steps_exact.
  all: simpl_record; (split; [reflexivity|]);
    try match goal with H : customers_retrieve _ _ = _ |- _ => rewrite H end;
    match goal with H : notified_and_recorded _ _ _ |- _ => revert H; simpl_record; intros H end.
  - eexists _, _, [_], _, _. cbn [app].
    split; [reflexivity|]. split; [exact H|]. repeat split.
  - eexists _, _, [_; _], _, _. cbn [app].
    split; [reflexivity|]. split; [exact H|]. split; [reflexivity|].
    split; [reflexivity|]. eexists. reflexivity.
  - eexists _, _, [], _, _. cbn [app].
    split; [reflexivity|]. split; [exact H|]. repeat split.
Qed.

(** ** The notifier and the record logger *)

(** X1.  [sendEmailAlert] hands the mail to the transport once (there is no
    retry), logs one entry -- at [info] naming the payment when the transport
    accepted the mail, at [error] carrying the transport's message when it
    did not -- and returns in both cases. *)
Theorem notifier_tries_once_and_logs_the_outcome
        (w : World) (pd : PaymentData.t) (st : State) :
  outcome (sendEmailAlert w pd) st
          (fun r new =>
             r = Ok tt
             /\ count is_mail_sent new = 1
             /\ exists t,
                 new = [Call_sendEmailAlert pd;
                        SendMail (alert_mail w pd);
                        Logged
                          (match sendMail w (alert_mail w pd) with
                           | Ok _ =>
                               LogEntry.mk t info
                                 ("Email alert sent successfully for payment "
                                  ++ PaymentData.paymentId pd)
                           | Throw e =>
                               LogEntry.mk t error
                                 ("Failed to send email alert: " ++ message e)
                           end)]).
Proof.
  eapply outcome_weaken; [apply sendEmailAlert_exact|].
  intros r new (-> & t & ->). split; [reflexivity|]. split; [reflexivity|].
  exists t. unfold mail_log. now destruct (sendMail w (alert_mail w pd)).
Qed.

(** X2.  When the record store refuses the row, [logToAirtable] returns
    all the same, after one [error] entry carrying the store's message; that
    entry is followed by ten [warn] entries (the schema guidance) when the
    message contains "NOT_FOUND", and by nothing otherwise.  The row is
    offered once. *)
Theorem record_store_failure_is_logged_with_guidance
        (w : World) (pd : PaymentData.t) (err : Error) (st : State) :
  create w "Failed Payments" (airtable_record pd) = Throw err ->
  outcome (logToAirtable w pd) st
          (fun r new =>
             r = Ok tt
             /\ count is_row_created new = 1
             /\ count (is_log_at error) new = 1
             /\ exists t guidance,
                 new = [Call_logToAirtable pd;
                        AirtableCreate "Failed Payments" (airtable_record pd);
                        Logged (LogEntry.mk t error
                                  ("Failed to log to Airtable: " ++ message err))]
                       ++ guidance
                 /\ forallb (is_log_at warn) guidance = true
                 /\ (contains (message err) "NOT_FOUND" /\ length guidance = 10
                     \/ ~ contains (message err) "NOT_FOUND" /\ guidance = [])).
Proof.
  intros Hcreate.
  eapply outcome_weaken; [apply logToAirtable_exact|].
  intros r new (-> & t & guidance & -> & Hwarn & Hlen).
  unfold row_log, guidance_length in *. rewrite Hcreate in *.
  cbn [fst snd] in *.
  destruct (warn_only_counts guidance Hwarn) as (_ & H2 & _ & _ & H4).
  split; [reflexivity|].
  split; [now rewrite !count_cons, H2|].
  split; [now rewrite !count_cons, H4|].
  exists t, guidance. split; [reflexivity|]. split; [exact Hwarn|].
  destruct (includes (message err) "NOT_FOUND") eqn:E.
  - left. split; [now apply includes_contains | exact Hlen].
  - right. split.
    + intros H. apply includes_contains in H. congruence.
    + now destruct guidance.
Qed.

Lemma record_store_failure_is_logged_with_guidance_witness :
  let w := Sample.down Sample.charge_failed in
  let pd := PaymentData.mk "ch_1" None None 2500 "usd" "Your card was declined."
                           "2025-08-29T22:29:33.000Z" in
  create w "Failed Payments" (airtable_record pd) = Throw (mkError "NOT_FOUND")
  /\ outcome (logToAirtable w pd) initial (fun r _ => r = Ok tt).
Proof.
  split; [reflexivity|].
  eapply outcome_weaken.
  - apply (record_store_failure_is_logged_with_guidance
             (Sample.down Sample.charge_failed)
             (PaymentData.mk "ch_1" None None 2500 "usd" "Your card was declined."
                             "2025-08-29T22:29:33.000Z")
             (mkError "NOT_FOUND") initial).
    reflexivity.
  - intros r new [H _]. exact H.
Defined.

(** X3.  For an amount below [2^52] minor units in absolute value, the row
    [logToAirtable] offers to the "Failed Payments" table is made of these
    nine cells, in this order: the amount as its exact two-decimal expansion,
    the currency in upper case, "Unknown" and "N/A" for an absent customer
    e-mail and id, and the fixed "Failed" and "Yes". *)
Theorem record_logger_row (w : World) (pd : PaymentData.t) (st : State) :
  (Z.abs (PaymentData.amount pd) < 2 ^ 52)%Z ->
  outcome (logToAirtable w pd) st
          (fun _ new =>
             In (AirtableCreate
                   "Failed Payments"
                   [("Payment ID", PaymentData.paymentId pd);
                    ("Customer Email",
                     match if_truthy (PaymentData.customerEmail pd) with
                     | Some e => e
                     | None => "Unknown"
                     end);
                    ("Customer ID",
                     match if_truthy (PaymentData.customerId pd) with
                     | Some c => c
                     | None => "N/A"
                     end);
                    ("Amount", Number.two_decimals (PaymentData.amount pd));
                    ("Currency", toUpperCase (PaymentData.currency pd));
                    ("Failure Reason", PaymentData.failureReason pd);
                    ("Timestamp", PaymentData.timestamp pd);
                    ("Status", "Failed");
                    ("Alert Sent", "Yes")])
                new
             /\ count is_row_created new = 1).
Proof.
  intros Hamount.
  eapply outcome_weaken; [apply logToAirtable_exact|].
  intros r new (-> & t & guidance & -> & Hwarn & _).
  destruct (warn_only_counts guidance Hwarn) as (_ & H2 & _).
  split; [|now rewrite !count_cons, H2].
  right. left. f_equal. unfold airtable_record.
  rewrite NumberFacts.toFixed2_div100 by assumption.
  destruct pd as [id [[|c cid]|] [[|e em]|] amount currency reason ts]; reflexivity.
Qed.

Lemma record_logger_row_witness :
  let pd := PaymentData.mk "ch_1" None (Some "jo@example.com") 123456 "eur"
                           "Your card was declined." "2025-08-29T22:29:33.000Z" in
  (Z.abs (PaymentData.amount pd) < 2 ^ 52)%Z
  /\ outcome (logToAirtable (Sample.up Sample.charge_failed) pd) initial
             (fun _ new =>
                In (AirtableCreate
                      "Failed Payments"
                      [("Payment ID", "ch_1");
                       ("Customer Email", "jo@example.com");
                       ("Customer ID", "N/A");
                       ("Amount", "1234.56");
                       ("Currency", "EUR");
                       ("Failure Reason", "Your card was declined.");
                       ("Timestamp", "2025-08-29T22:29:33.000Z");
                       ("Status", "Failed");
                       ("Alert Sent", "Yes")])
                   new).
Proof.
  split; [reflexivity|].
  eapply outcome_weaken.
  - apply (record_logger_row
             (Sample.up Sample.charge_failed)
             (PaymentData.mk "ch_1" None (Some "jo@example.com") 123456 "eur"
                             "Your card was declined." "2025-08-29T22:29:33.000Z")
             initial).
    reflexivity.
  - intros r new [H _]. exact H.
Defined.

(** ** Dispatch of the webhook route *)

Lemma not_subscribed (t : string) :
  ~ In t eventsToSubscribe ->
  (t =? "payment_intent.payment_failed")%string = false
  /\ (t =? "invoice.payment_failed")%string = false
  /\ (t =? "charge.failed")%string = false.
Proof.
  intros H. repeat split; apply String.eqb_neq; intros ->; apply H; cbn; auto.
Qed.

(** X4.  A verified event whose type is not one of the three that GET
    /webhook/info lists is acknowledged with HTTP 200 after one [info] entry
    naming its type, and nothing else happens: no outbound call, no
    notification, no row. *)
Theorem unsubscribed_event_is_only_acknowledged
        (w : World) (req : Request) (event : Stripe.Event) (st : State) :
  constructEvent w (body req) (headers req "stripe-signature")
                 (env w "STRIPE_WEBHOOK_SECRET") = Ok event ->
  ~ In (Stripe.type event) eventsToSubscribe ->
  outcome (post_webhook w req) st
          (fun r new =>
             r = Ok received
             /\ count is_outbound new = 0
             /\ exists t,
                 new = [Logged (LogEntry.mk t info
                                  ("Received webhook event: " ++ Stripe.type event))]).
Proof.
  intros Hsig Htype.
  destruct (not_subscribed _ Htype) as (H1 & H2 & H3).
  unfold post_webhook. steps.
  split; [reflexivity|]. split; [reflexivity|]. eexists. reflexivity.
Qed.

Lemma unsubscribed_event_is_only_acknowledged_witness :
  let event := Stripe.mkEvent "customer.created" Sample.intent in
  let w := Sample.down event in
  (constructEvent w (body Sample.signed) (headers Sample.signed "stripe-signature")
                  (env w "STRIPE_WEBHOOK_SECRET") = Ok event
   /\ ~ In (Stripe.type event) eventsToSubscribe)
  /\ outcome (post_webhook w Sample.signed) initial (fun r _ => r = Ok received).
Proof.
  assert (H : ~ In "customer.created"%string eventsToSubscribe).
  { cbn. intros [H|[H|[H|[]]]]; discriminate. }
  split; [split; [reflexivity | exact H]|].
  eapply outcome_weaken.
  - apply (unsubscribed_event_is_only_acknowledged
             (Sample.down (Stripe.mkEvent "customer.created" Sample.intent))
             Sample.signed (Stripe.mkEvent "customer.created" Sample.intent) initial).
    + reflexivity.
    + exact H.
  - intros r new [Hr _]. exact Hr.
Defined.

(** In what the notifier and the record logger do, the mail comes before
    the row. *)
Lemma notified_and_recorded_order (w : World) (pd : PaymentData.t)
      (rest pre post : list Effect) :
  notified_and_recorded w pd rest ->
  exists before between after,
    pre ++ rest ++ post
    = before
      ++ SendMail (alert_mail w pd)
      :: between
      ++ AirtableCreate "Failed Payments" (airtable_record pd)
      :: after.
Proof.
  intros (t1 & t2 & guidance & -> & _ & _).
  eexists (pre ++ [_]), [_; _], (_ :: guidance ++ post).
  rewrite <- !app_assoc. reflexivity.
Qed.

Ltac helper_exact ::=
  lazymatch goal with
  | |- outcome (bind (sendEmailAlert _ _) (fun _ => logToAirtable _ _)) _ _ =>
      eapply outcome_weaken;
      [apply notify_then_record | intros ? ? (-> & ?)]
  | |- outcome (sendEmailAlert _ _) _ _ =>
      eapply outcome_weaken;
      [apply sendEmailAlert_exact | intros ? ? (-> & ? & ->)]
  | |- outcome (logToAirtable _ _) _ _ =>
      eapply outcome_weaken;
      [apply logToAirtable_exact | intros ? ? (-> & ? & ? & -> & ? & ?)]
  | |- outcome (processFailedPayment _ _) _ _ =>
      eapply outcome_weaken;
      [apply processFailedPayment_exact
      | intros ? ? (-> & ? & ? & ? & ? & ? & -> & ? & ? & ?)]
  end.

(** X5.  For a verified payment_intent.payment_failed event the handler
    builds the record from the event's payment intent (id, customer, amount,
    currency, and the failure message or "Unknown error"), hands the mail to
    the transport and then the row to the record store, each exactly once
    and for that record, and answers HTTP 200 -- whatever the customer
    lookup, the transport and the store do. *)
Theorem payment_intent_failure_notifies_then_records
        (w : World) (req : Request) (event : Stripe.Event) (st : State) :
  constructEvent w (body req) (headers req "stripe-signature")
                 (env w "STRIPE_WEBHOOK_SECRET") = Ok event ->
  Stripe.type event = "payment_intent.payment_failed" ->
  outcome (post_webhook w req) st
          (fun r new =>
             r = Ok received
             /\ count is_mail_sent new = 1
             /\ count is_row_created new = 1
             /\ exists pd before between after,
                 new = before
                       ++ SendMail (alert_mail w pd)
                       :: between
                       ++ AirtableCreate "Failed Payments" (airtable_record pd)
                       :: after
                 /\ PaymentData.paymentId pd = Stripe.id (Stripe.data_object event)
                 /\ PaymentData.customerId pd
                    = Stripe.customer (Stripe.data_object event)
                 /\ PaymentData.amount pd = Stripe.amount (Stripe.data_object event)
                 /\ PaymentData.currency pd
                    = Stripe.currency (Stripe.data_object event)
                 /\ PaymentData.failureReason pd
                    = or_else (last_payment_error_message (Stripe.data_object event))
                              "Unknown error").
Proof.
  intros Hsig Htype. unfold post_webhook. steps_exact.
  match goal with
  | H : notified_and_recorded _ ?pd _, L : forallb is_lookup _ = true |- _ =>
      destruct (notified_and_recorded_counts _ _ _ H) as (C1 & C2 & _);
      destruct (lookup_counts _ L) as (L1 & L2);
      split; [reflexivity|];
      split; [|split; [|exists pd]]
  end.
  - count_split. rewrite L1, C1. reflexivity.
  - count_split. rewrite L2, C2. reflexivity.
  - match goal with
    | Hn : notified_and_recorded _ _ ?rest
      |- exists b bt af, ?pre ++ [?e] ++ (?l ++ ?e0 :: ?rest) ++ [] = _ /\ _ =>
        destruct (notified_and_recorded_order _ _ rest (pre ++ [e] ++ l ++ [e0]) [] Hn)
          as (b & bt & af & E);
        exists b, bt, af; split;
        [rewrite <- E, <- !app_assoc; reflexivity | repeat split]
    end.
Qed.

Lemma payment_intent_failure_notifies_then_records_witness :
  let w := Sample.down Sample.intent_failed in
  (constructEvent w (body Sample.signed) (headers Sample.signed "stripe-signature")
                  (env w "STRIPE_WEBHOOK_SECRET") = Ok Sample.intent_failed
   /\ Stripe.type Sample.intent_failed = "payment_intent.payment_failed")
  /\ outcome (post_webhook w Sample.signed) initial
             (fun r new =>
                r = Ok received
                /\ count is_mail_sent new = 1
                /\ count is_row_created new = 1).
Proof.
  split; [split; reflexivity|].
  eapply outcome_weaken.
  - apply (payment_intent_failure_notifies_then_records
             (Sample.down Sample.intent_failed) Sample.signed
             Sample.intent_failed initial);
      reflexivity.
  - intros r new (H1 & H2 & H3 & _). auto.
Defined.

(** X6.  For a verified invoice.payment_failed event whose payment intent
    was fetched, the record that is notified and stored describes the
    fetched payment intent -- its id, customer, amount and currency -- not
    the invoice; the fetch comes first, and mail and row are each offered
    once. *)
Theorem invoice_failure_reports_the_fetched_intent
        (w : World) (req : Request) (event : Stripe.Event) (pi : string)
        (intent : Stripe.Object) (st : State) :
  constructEvent w (body req) (headers req "stripe-signature")
                 (env w "STRIPE_WEBHOOK_SECRET") = Ok event ->
  Stripe.type event = "invoice.payment_failed" ->
  if_truthy (Stripe.payment_intent (Stripe.data_object event)) = Some pi ->
  paymentIntents_retrieve w pi = Ok intent ->
  outcome (post_webhook w req) st
          (fun r new =>
             r = Ok received
             /\ count is_mail_sent new = 1
             /\ count is_row_created new = 1
             /\ exists pd t rest,
                 new = Logged (LogEntry.mk t info
                                 "Received webhook event: invoice.payment_failed")
                       :: PaymentIntentsRetrieve pi
                       :: rest
                 /\ In (Call_sendEmailAlert pd) rest
                 /\ In (Call_logToAirtable pd) rest
                 /\ PaymentData.paymentId pd = Stripe.id intent
                 /\ PaymentData.customerId pd = Stripe.customer intent
                 /\ PaymentData.amount pd = Stripe.amount intent
                 /\ PaymentData.currency pd = Stripe.currency intent).
Proof.
  intros Hsig Htype Hpi Hfetch. unfold post_webhook. steps_exact.
  match goal with
  | H : notified_and_recorded _ ?pd _, L : forallb is_lookup _ = true |- _ =>
      destruct (notified_and_recorded_counts _ _ _ H) as (C1 & C2 & _);
      destruct (lookup_counts _ L) as (L1 & L2);
      split; [reflexivity|];
      split; [|split; [|exists pd; destruct H as (t1 & t2 & guidance & -> & _ & _)]]
  end.
  - count_split. rewrite L1, C1. reflexivity.
  - count_split. rewrite L2, C2. reflexivity.
  - do 2 eexists. cbn [app]. split; [reflexivity|].
    split; [|split; [|repeat split]].
    + rewrite app_nil_r. apply in_or_app. right. right. left. reflexivity.
    + rewrite app_nil_r. apply in_or_app. right. right. cbn. auto 10.
Qed.

Lemma invoice_failure_reports_the_fetched_intent_witness :
  let w := Sample.up Sample.invoice_failed in
  (constructEvent w (body Sample.signed) (headers Sample.signed "stripe-signature")
                  (env w "STRIPE_WEBHOOK_SECRET") = Ok Sample.invoice_failed
   /\ Stripe.type Sample.invoice_failed = "invoice.payment_failed"
   /\ if_truthy (Stripe.payment_intent (Stripe.data_object Sample.invoice_failed))
      = Some "pi_123"
   /\ paymentIntents_retrieve w "pi_123" = Ok Sample.intent)
  /\ outcome (post_webhook w Sample.signed) initial
             (fun r new =>
                r = Ok received
                /\ count is_mail_sent new = 1
                /\ count is_row_created new = 1).
Proof.
  split; [repeat split|].
  eapply outcome_weaken.
  - apply (invoice_failure_reports_the_fetched_intent
             (Sample.up Sample.invoice_failed) Sample.signed Sample.invoice_failed
             "pi_123" Sample.intent initial);
      reflexivity.
  - intros r new (H1 & H2 & H3 & _). auto.
Defined.

(** X7.  For a verified charge.failed event the handler asks the provider
    nothing: the record is built from the charge alone, with the billing
    e-mail as customer e-mail ([null] when it is missing or empty) and the
    failure message or "Unknown error" as reason; mail and row are each
    offered once for that record, and the answer is HTTP 200. *)
Theorem charge_failure_needs_no_lookup
        (w : World) (req : Request) (event : Stripe.Event) (st : State) :
  constructEvent w (body req) (headers req "stripe-signature")
                 (env w "STRIPE_WEBHOOK_SECRET") = Ok event ->
  Stripe.type event = "charge.failed" ->
  outcome (post_webhook w req) st
          (fun r new =>
             r = Ok received
             /\ count is_provider_fetch new = 0
             /\ count is_mail_sent new = 1
             /\ count is_row_created new = 1
             /\ exists pd,
                 In (Call_sendEmailAlert pd) new
                 /\ In (Call_logToAirtable pd) new
                 /\ PaymentData.paymentId pd = Stripe.id (Stripe.data_object event)
                 /\ PaymentData.customerId pd
                    = Stripe.customer (Stripe.data_object event)
                 /\ PaymentData.customerEmail pd
                    = if_truthy (billing_email (Stripe.data_object event))
                 /\ PaymentData.failureReason pd
                    = match if_truthy (Stripe.failure_message (Stripe.data_object event))
                      with
                      | Some reason => reason
                      | None => "Unknown error"
                      end).
Proof.
  intros Hsig Htype. unfold post_webhook. steps_exact.
  match goal with
  | H : notified_and_recorded _ ?pd _ |- _ =>
      destruct (notified_and_recorded_counts _ _ _ H) as (C1 & C2 & C3 & _);
      split; [reflexivity|];
      split; [|split; [|split; [|exists pd;
                                  destruct H as (t1 & t2 & guidance & -> & _ & _)]]]
  end.
  - count_split. rewrite C3. reflexivity.
  - count_split. rewrite C1. reflexivity.
  - count_split. rewrite C2. reflexivity.
  - cbn [app In PaymentData.paymentId PaymentData.customerId
         PaymentData.customerEmail PaymentData.failureReason].
    split; [auto 10|]. split; [auto 10|]. split; [reflexivity|].
    split; [reflexivity|]. split.
    + now destruct (billing_email (Stripe.data_object event)) as [[|c e]|].
    + now destruct (Stripe.failure_message (Stripe.data_object event)) as [[|c e]|].
Qed.

Lemma charge_failure_needs_no_lookup_witness :
  let w := Sample.down Sample.charge_failed in
  (constructEvent w (body Sample.signed) (headers Sample.signed "stripe-signature")
                  (env w "STRIPE_WEBHOOK_SECRET") = Ok Sample.charge_failed
   /\ Stripe.type Sample.charge_failed = "charge.failed")
  /\ outcome (post_webhook w Sample.signed) initial
             (fun r new => r = Ok received /\ count is_provider_fetch new = 0).
Proof.
  split; [split; reflexivity|].
  eapply outcome_weaken.
  - apply (charge_failure_needs_no_lookup
             (Sample.down Sample.charge_failed) Sample.signed
             Sample.charge_failed initial);
      reflexivity.
  - intros r new (H1 & H2 & _). auto.
Defined.

(** ** Enrichment, the other cases *)

(** X8.  When the payment intent names a customer and the lookup succeeds,
    the record that is notified and stored carries the e-mail of the
    customer found ([customer.email], which may itself be absent); the
    lookup is the first thing done, and it is followed at once by the
    "Processing failed payment" entry. *)
Theorem customer_email_comes_from_the_lookup
        (w : World) (paymentIntent : Stripe.Object) (cus : string)
        (customer : Stripe.Customer) (st : State) :
  if_truthy (Stripe.customer paymentIntent) = Some cus ->
  customers_retrieve w cus = Ok customer ->
  outcome (processFailedPayment w paymentIntent) st
          (fun r new =>
             r = Ok tt
             /\ exists pd e rest,
                 new = CustomersRetrieve cus :: Logged e :: rest
                 /\ LogEntry.level e = info
                 /\ In (Call_sendEmailAlert pd) rest
                 /\ In (Call_logToAirtable pd) rest
                 /\ PaymentData.customerEmail pd = Stripe.customer_email customer
                 /\ PaymentData.customerId pd = Stripe.customer paymentIntent).
Proof.
  intros Hcus Hfetch.
  eapply outcome_weaken; [apply processFailedPayment_exact|].
  intros r new (-> & email & ts & lookup & t & rest & Hnew & Hrest & _ & Hlookup).
  rewrite Hcus, Hfetch in Hlookup. destruct Hlookup as (-> & ->).
  destruct Hrest as (t1 & t2 & guidance & -> & _ & _).
  split; [reflexivity|].
  eexists _, _, _. split; [exact Hnew|].
  cbn [LogEntry.level app In PaymentData.customerEmail PaymentData.customerId].
  split; [reflexivity|]. split; [auto 10|]. split; [auto 10|].
  split; reflexivity.
Qed.

Lemma customer_email_comes_from_the_lookup_witness :
  let w := Sample.up Sample.intent_failed in
  (if_truthy (Stripe.customer Sample.intent) = Some "cus_9"
   /\ customers_retrieve w "cus_9" = Ok (Stripe.mkCustomer (Some "jo@example.com")))
  /\ outcome (processFailedPayment w Sample.intent) initial (fun r _ => r = Ok tt).
Proof.
  split; [split; reflexivity|].
  eapply outcome_weaken.
  - apply (customer_email_comes_from_the_lookup
             (Sample.up Sample.intent_failed) Sample.intent "cus_9"
             (Stripe.mkCustomer (Some "jo@example.com")) initial);
      reflexivity.
  - intros r new (H & _). exact H.
Defined.

(** X9.  When the payment intent names no customer ([customer] is [null],
    missing or empty), [processFailedPayment] asks the provider nothing and
    goes straight to the "Processing failed payment" entry; the record
    has no customer e-mail, so the mail says "Unknown". *)
Theorem no_customer_no_lookup
        (w : World) (paymentIntent : Stripe.Object) (st : State) :
  if_truthy (Stripe.customer paymentIntent) = None ->
  outcome (processFailedPayment w paymentIntent) st
          (fun r new =>
             r = Ok tt
             /\ count is_provider_fetch new = 0
             /\ exists pd,
                 In (SendMail (alert_mail w pd)) new
                 /\ In (Call_logToAirtable pd) new
                 /\ PaymentData.customerEmail pd = None
                 /\ contains (html (alert_mail w pd))
                             "<p><strong>Customer:</strong> Unknown</p>").
Proof.
  intros Hcus.
  eapply outcome_weaken; [apply processFailedPayment_exact|].
  intros r new (-> & email & ts & lookup & t & rest & Hnew & Hrest & _ & Hlookup).
  rewrite Hcus in Hlookup. destruct Hlookup as (-> & ->).
  destruct (notified_and_recorded_counts _ _ _ Hrest) as (_ & _ & C3 & _).
  split; [reflexivity|]. split.
  { rewrite Hnew. count_split. rewrite C3. reflexivity. }
  destruct Hrest as (t1 & t2 & guidance & -> & _ & _).
  eexists. rewrite Hnew. cbn [app In PaymentData.customerEmail].
  split; [auto 10|]. split; [auto 10|]. split; [reflexivity|].
  cbn [html alert_mail].
  match goal with
  | |- contains (alert_html ?pd) _ => exact (proj1 (alert_html_lines pd))
  end.
Qed.

Lemma no_customer_no_lookup_witness :
  let intent := Stripe.mkObject "pi_7" (Some "") 990 "eur" None None None None in
  let w := Sample.up Sample.intent_failed in
  if_truthy (Stripe.customer intent) = None
  /\ outcome (processFailedPayment w intent) initial
             (fun r new => r = Ok tt /\ count is_provider_fetch new = 0).
Proof.
  split; [reflexivity|].
  eapply outcome_weaken.
  - apply (no_customer_no_lookup
             (Sample.up Sample.intent_failed)
             (Stripe.mkObject "pi_7" (Some "") 990 "eur" None None None None)
             initial).
    reflexivity.
  - intros r new (H1 & H2 & _). auto.
Defined.

(** X10.  The row says "Alert Sent: Yes" whether or not the alert was sent:
    when the mail transport rejects every mail, [processFailedPayment] logs
    the failure at [error] and still offers the record store a row whose
    "Alert Sent" cell is "Yes" and whose "Status" cell is "Failed". *)
Theorem row_says_alert_sent_even_when_the_mail_failed
        (w : World) (paymentIntent : Stripe.Object) (err : Error) (st : State) :
  (forall mailOptions, sendMail w mailOptions = Throw err) ->
  outcome (processFailedPayment w paymentIntent) st
          (fun r new =>
             r = Ok tt
             /\ exists t row,
                 In (Logged (LogEntry.mk t error
                               ("Failed to send email alert: " ++ message err)))
                    new
                 /\ In (AirtableCreate "Failed Payments" row) new
                 /\ In ("Alert Sent", "Yes") row
                 /\ In ("Status", "Failed") row
                 /\ In ("Payment ID", Stripe.id paymentIntent) row).
Proof.
  intros Hmail.
  eapply outcome_weaken; [apply processFailedPayment_exact|].
  intros r new (-> & email & ts & lookup & t & rest & Hnew & Hrest & _ & _).
  destruct Hrest as (t1 & t2 & guidance & -> & _ & _).
  unfold mail_log in Hnew. rewrite Hmail in Hnew. cbn [fst snd] in Hnew.
  split; [reflexivity|]. eexists t1, _. rewrite Hnew. split; [|split].
  - apply in_or_app. right. cbn. auto 10.
  - apply in_or_app. right. cbn. auto 10.
  - unfold airtable_record. cbn. auto 12.
Qed.

Lemma row_says_alert_sent_even_when_the_mail_failed_witness :
  let w := Sample.down Sample.intent_failed in
  (forall mailOptions, sendMail w mailOptions = Throw (mkError "Invalid login"))
  /\ outcome (processFailedPayment w Sample.intent) initial (fun r _ => r = Ok tt).
Proof.
  split; [reflexivity|].
  eapply outcome_weaken.
  - apply (row_says_alert_sent_even_when_the_mail_failed
             (Sample.down Sample.intent_failed) Sample.intent
             (mkError "Invalid login") initial).
    reflexivity.
  - intros r new (H & _). exact H.
Defined.

(** ** The health and test routes *)

(** X11.  GET /health runs its three checks in a fixed order -- provider
    balance, mail transport, record store -- and runs all of them whatever
    the earlier ones gave; it answers (it does not throw), writes no log
    entry and leaves the log buffer as it was. *)
Theorem health_runs_every_check (w : World) (st : State) :
  exists r st',
    run (get_health w) st = (r, st')
    /\ ok r = true
    /\ trace st'
       = trace st ++ [BalanceRetrieve; GmailVerify; AirtableFirstPage "Failed Payments"]
    /\ logs st' = logs st
    /\ console st' = console st.
Proof.
  assert (H : outcome (get_health w) st
                      (fun r new =>
                         ok r = true
                         /\ new = [BalanceRetrieve; GmailVerify;
                                   AirtableFirstPage "Failed Payments"])).
  { unfold get_health. steps. all: split; reflexivity. }
  destruct H as (r & st' & new & Hrun & Htrace & Hlogs & Hok & ->).
  exists r, st'. repeat split; try assumption.
  assert (Hc : console (snd (run (get_health w) st)) = console st).
  { unfold run, get_health, bind, try_catch, await, emit, Date_new, ret. cbn.
    destruct (balance_retrieve w), (verify w), (firstPage w "Failed Payments");
      reflexivity. }
  now rewrite Hrun in Hc.
Qed.

(** X12.  POST /test offers the mail and the row once each, for the same
    test record.  It logs "Manual test initiated" first and "Test completed
    successfully" last even when the mail or the row was refused; between
    the two, the entries at [error] are as many as the calls that failed. *)
Theorem manual_test_reports_success_whatever_failed (w : World) (st : State) :
  outcome (post_test w) st
          (fun r new =>
             exists now date t0 t3 middle,
               let testData :=
                 PaymentData.mk ("pi_test_" ++ Number.toString (millis now))
                                (Some "cus_test_customer")
                                (alert_recipient w)
                                2500 "usd"
                                "Test failure - insufficient funds"
                                (toISOString date) in
               ok r = true
               /\ new = Logged (LogEntry.mk t0 info "Manual test initiated")
                        :: middle
                        ++ [Logged (LogEntry.mk t3 info "Test completed successfully")]
               /\ count is_mail_sent new = 1
               /\ count is_row_created new = 1
               /\ In (SendMail (alert_mail w testData)) middle
               /\ In (AirtableCreate "Failed Payments" (airtable_record testData))
                     middle
               /\ count (is_log_at error) new
                  = (if ok (sendMail w (alert_mail w testData)) then 0 else 1)
                    + (if ok (create w "Failed Payments" (airtable_record testData))
                       then 0 else 1)).
Proof.
  unfold post_test. steps_exact.
  match goal with
  | |- context [Number.toString (millis ?n)] =>
      match goal with
      | |- context [PaymentData.mk _ _ _ _ _ _ (toISOString ?d)] => exists n, d
      end
  end.
  match goal with
  | Hw : forallb (is_log_at warn) ?g = true |- _ =>
      destruct (warn_only_counts g Hw) as (G1 & G2 & _ & _ & G4)
  end.
  match goal with
  | |- exists t0 t3 middle,
      _ /\ [Logged (LogEntry.mk ?ta _ _)] ++ [] ++ [] ++ ?A ++ ?B
            ++ [Logged (LogEntry.mk ?tb _ _)] ++ [] = _ /\ _ =>
      exists ta, tb, (A ++ B)
  end.
  cbv zeta. split; [reflexivity|]. split; [reflexivity|].
  split; [count_split; rewrite G1; reflexivity|].
  split; [count_split; rewrite G2; reflexivity|].
  split; [cbn; auto 10|]. split; [cbn; auto 10|].
  count_split. rewrite G4. unfold mail_log, row_log.
  match goal with
  | |- context [sendMail w ?mo] => destruct (sendMail w mo)
  end;
  match goal with
  | |- context [create w ?tb ?row] => destruct (create w tb row)
  end; reflexivity.
Qed.

(** ** The buffer and the console over a whole run *)

Section Preservation.

Context {A : Type}.

Lemma preserves_ret (a : A) : preserves (ret a).
Proof. intros st H. exact H. Qed.

Lemma preserves_throw (e : Error) : preserves (@throw A e).
Proof. intros st H. exact H. Qed.

Lemma preserves_eval (o : Result A) : preserves (eval o).
Proof. intros st H. exact H. Qed.

Lemma preserves_await (ef : Effect) (o : Result A) :
  logged [ef] = [] -> preserves (await ef o).
Proof.
  intros Hef st [Hl Hc]. split; cbn [run await emit bind snd logs console trace].
  - cbn. now rewrite logged_app, Hef, app_nil_r.
  - cbn. now rewrite logged_app, Hef, app_nil_r.
Qed.

Lemma preserves_bind {B : Type} (m : M B) (k : B -> M A) :
  preserves m -> (forall b, preserves (k b)) -> preserves (bind m k).
Proof.
  intros Hm Hk st H. specialize (Hm st H). unfold run, bind in *.
  destruct (m st) as [[b|e] st']; cbn [snd] in *.
  - apply (Hk b st' Hm).
  - exact Hm.
Qed.

Lemma preserves_try_catch (m : M A) (h : Error -> M A) :
  preserves m -> (forall e, preserves (h e)) -> preserves (try_catch m h).
Proof.
  intros Hm Hh st H. specialize (Hm st H). unfold run, try_catch in *.
  destruct (m st) as [[a|e] st']; cbn [snd] in *.
  - exact Hm.
  - apply (Hh e st' Hm).
Qed.

End Preservation.

Lemma preserves_emit (ef : Effect) : logged [ef] = [] -> preserves (emit ef).
Proof.
  intros Hef st [Hl Hc]. split; cbn.
  - now rewrite logged_app, Hef, app_nil_r.
  - now rewrite logged_app, Hef, app_nil_r.
Qed.

Lemma preserves_Date_new (w : World) : preserves (Date_new w).
Proof. intros st H. exact H. Qed.

(** [addLog] keeps the buffer the last 100 of what was ever logged, and the
    console a line for each entry. *)
Lemma preserves_addLog (w : World) (message : string) (level : Level) :
  preserves (addLog w message level).
Proof.
  intros st [Hl Hc]. rewrite addLog_run. cbn [snd].
  split; cbn [logs console trace].
  - rewrite logged_app, push_log_slice, Hl, slice_last_app_absorb. reflexivity.
  - rewrite logged_app, map_app, Hc. reflexivity.
Qed.

Ltac keep :=
  lazymatch goal with
  | |- preserves (bind _ _) => apply preserves_bind; [|intros ?]
  | |- preserves (try_catch _ _) => apply preserves_try_catch; [|intros ?]
  | |- preserves (ret _) => apply preserves_ret
  | |- preserves (throw _) => apply preserves_throw
  | |- preserves (eval _) => apply preserves_eval
  | |- preserves (await _ _) => apply preserves_await; reflexivity
  | |- preserves (emit _) => apply preserves_emit; reflexivity
  | |- preserves (addLog _ _ _) => apply preserves_addLog
  | |- preserves (Date_new _) => apply preserves_Date_new
  | |- preserves (if ?b then _ else _) => destruct b
  | |- preserves (match ?o with Some _ => _ | None => _ end) => destruct o
  | |- preserves (match ?v with inl _ => _ | inr _ => _ end) => destruct v
  | |- preserves (let x := _ in _) => cbv zeta
  end.

Lemma preserves_sendEmailAlert (w : World) (pd : PaymentData.t) :
  preserves (sendEmailAlert w pd).
Proof. unfold sendEmailAlert. repeat keep. Qed.

Lemma preserves_logToAirtable (w : World) (pd : PaymentData.t) :
  preserves (logToAirtable w pd).
Proof. unfold logToAirtable. repeat keep. Qed.

Lemma preserves_processFailedPayment (w : World) (paymentIntent : Stripe.Object) :
  preserves (processFailedPayment w paymentIntent).
Proof.
  unfold processFailedPayment.
  repeat first [apply preserves_sendEmailAlert | apply preserves_logToAirtable | keep].
Qed.

Lemma preserves_handle (w : World) (r : Route) : preserves (handle w r).
Proof.
  destruct r; cbn [handle].
  - unfold get_root. repeat keep.
  - unfold get_health. repeat keep.
  - intros st H. exact H.
  - unfold post_test.
    repeat first [apply preserves_sendEmailAlert | apply preserves_logToAirtable | keep].
  - unfold get_webhook_info. repeat keep.
  - unfold post_webhook.
    repeat first [apply preserves_processFailedPayment
                 | apply preserves_sendEmailAlert | apply preserves_logToAirtable
                 | keep].
Qed.

(** Every route answers: no handler lets an exception escape. *)
Lemma handle_answers (w : World) (r : Route) (st : State) :
  ok (fst (run (handle w r) st)) = true.
Proof.
  assert (H : outcome (handle w r) st (fun a _ => ok a = true)).
  { destruct r; cbn [handle].
    - unfold get_root. steps. reflexivity.
    - unfold get_health. steps. all: reflexivity.
    - exists (fst (run get_logs st)), st, []. cbn. rewrite app_nil_r. auto.
    - unfold post_test. steps. reflexivity.
    - unfold get_webhook_info. steps. reflexivity.
    - unfold post_webhook. steps. all: reflexivity. }
  destruct H as (a & st' & new & Hrun & _ & _ & Hok). now rewrite Hrun.
Qed.

Lemma consistent_initial : consistent initial.
Proof. split; reflexivity. Qed.

Lemma consistent_started (w : World) : consistent (started w).
Proof.
  unfold started. assert (H : preserves (listen w)) by (unfold listen; repeat keep).
  apply H, consistent_initial.
Qed.

Lemma handle_all_invariant (rs : list (World * Route)) :
  forall st,
    consistent st ->
    consistent (snd (handle_all rs st))
    /\ length (fst (handle_all rs st)) = length rs
    /\ Forall (fun a => ok a = true) (fst (handle_all rs st)).
Proof.
  induction rs as [|[w r] rs IH]; intros st H.
  - cbn. auto.
  - cbn [handle_all].
    pose proof (preserves_handle w r st H) as H1.
    pose proof (handle_answers w r st) as H2.
    destruct (run (handle w r) st) as [a st1]. cbn [fst snd] in *.
    destruct (IH st1 H1) as (I1 & I2 & I3).
    destruct (handle_all rs st1) as [answers st2]. cbn [fst snd] in *.
    split; [exact I1|]. split; [cbn [length]; now rewrite I2|].
    constructor; assumption.
Qed.

(** X13.  From start-up on, whatever requests arrive on the six routes, one
    after the other, and whatever the outbound calls do during each of them:
    every request is answered (no handler throws), the log buffer is the last
    100 of all the entries logged since start-up (so never more than 100),
    and the console, which is never cut, has one line per entry logged. *)
Theorem requests_keep_the_buffer_bounded
        (w0 : World) (rs : list (World * Route)) :
  let answers := fst (handle_all rs (started w0)) in
  let st := snd (handle_all rs (started w0)) in
  length answers = length rs
  /\ Forall (fun a => ok a = true) answers
  /\ logs st = slice_last 100 (logged (trace st))
  /\ length (logs st) <= 100
  /\ console st = map console_line (logged (trace st)).
Proof.
  cbv zeta.
  destruct (handle_all_invariant rs (started w0) (consistent_started w0))
    as ([Hl Hc] & Hn & Ha).
  split; [exact Hn|]. split; [exact Ha|]. split; [exact Hl|].
  split; [rewrite Hl, slice_last_length; lia | exact Hc].
Qed.

(** X14.  After any run of requests since start-up, GET /logs answers with
    the last 50 of all the entries logged since start-up and with [total]
    the number of entries logged since start-up, capped at 100. *)
Theorem logs_route_after_any_run (w0 : World) (rs : list (World * Route)) :
  let st := snd (handle_all rs (started w0)) in
  let entries := logged (trace st) in
  run get_logs st
  = (Ok (mkResponse 200
           (Json_body
              (JObj [("logs", JArr (map LogEntry.to_json (slice_last 50 entries)));
                     ("total", JNum (Z.of_nat (Nat.min 100 (length entries))))]))),
     st).
Proof.
  cbv zeta.
  destruct (handle_all_invariant rs (started w0) (consistent_started w0))
    as ([Hl _] & _ & _).
  unfold run, get_logs. rewrite Hl.
  rewrite slice_last_twice by lia. rewrite slice_last_length. reflexivity.
Qed.

(** ** The rendered amount, read back *)

Section AmountFacts.

Local Open Scope Z_scope.

Let not_point (c : ascii) : bool := negb (Ascii.eqb c "."%char).

Lemma digit_not_point (d : Z) : 0 <= d < 10 -> not_point (Number.digit d) = true.
Proof.
  intros H.
  assert (E : d = 0 \/ d = 1 \/ d = 2 \/ d = 3 \/ d = 4 \/ d = 5 \/ d = 6
              \/ d = 7 \/ d = 8 \/ d = 9) by lia.
  repeat (destruct E as [->|E]; [reflexivity|]). now subst.
Qed.

Lemma digits_no_point (n : Z) :
  0 <= n -> filter not_point (Number.digits n) = Number.digits n.
Proof.
  revert n.
  apply (Zlt_0_ind (fun n => filter not_point (Number.digits n) = Number.digits n)).
  intros n IH Hn.
  destruct (Z.lt_ge_cases n 10) as [Hlt|Hge].
  - rewrite NumberFacts.digits_lt_10 by lia. cbn [filter].
    now rewrite digit_not_point by lia.
  - rewrite NumberFacts.digits_step by lia.
    assert (0 <= n / 10 < n) by (split; [apply Z.div_pos | apply Z.div_lt]; lia).
    rewrite filter_app, IH by lia. cbn [filter].
    now rewrite digit_not_point by (apply Z.mod_pos_bound; lia).
Qed.

Lemma list_ascii_of_string_app (a b : string) :
  list_ascii_of_string (a ++ b)
  = (list_ascii_of_string a ++ list_ascii_of_string b)%list.
Proof. induction a as [|c a IH]; cbn; [reflexivity|]. now rewrite IH. Qed.

Lemma minor_units_of_two_decimals (n : Z) :
  0 <= n -> minor_units_of (Number.two_decimals n) = n.
Proof.
  intros Hn. unfold minor_units_of, Number.two_decimals, Number.toString.
  fold not_point.
  destruct (Z.ltb_spec n 0); [lia|]. rewrite Z.abs_eq by lia.
  cbn [append]. rewrite list_ascii_of_string_app, list_ascii_of_string_of_list_ascii.
  cbn [list_ascii_of_string]. rewrite filter_app.
  assert (Hq : 0 <= n / 100) by (apply Z.div_pos; lia).
  assert (H1 : 0 <= n / 10 mod 10 < 10) by (apply Z.mod_pos_bound; lia).
  assert (H2 : 0 <= n mod 10 < 10) by (apply Z.mod_pos_bound; lia).
  rewrite digits_no_point by assumption. cbn [filter].
  change (not_point ".") with false. cbv iota.
  rewrite !digit_not_point by assumption.
  change [Number.digit (n / 10 mod 10); Number.digit (n mod 10)]
    with ([Number.digit (n / 10 mod 10)] ++ [Number.digit (n mod 10)])%list.
  rewrite app_assoc, !digits_value_snoc, digits_value_digits by assumption.
  rewrite !digit_code by assumption.
  pose proof (Z.div_mod n 10 ltac:(lia)).
  pose proof (Z.div_mod (n / 10) 10 ltac:(lia)).
  rewrite Z.div_div in * by lia. change (10 * 10) with 100 in *. lia.
Qed.

End AmountFacts.

(** X15.  The amount written in the mail and in the row loses nothing: for
    an amount from 0 to below [2^52] minor units, the digits of
    [(amount / 100).toFixed(2)], read without the decimal point, are the
    amount in minor units again; so different amounts are rendered
    differently. *)
Theorem rendered_amount_reads_back (n : Z) :
  (0 <= n < 2 ^ 52)%Z ->
  minor_units_of (Number.toFixed2 (Number.div100 n)) = n.
Proof.
  intros [Hlo Hhi].
  rewrite NumberFacts.toFixed2_div100 by (rewrite Z.abs_eq; assumption).
  now apply minor_units_of_two_decimals.
Qed.

Lemma rendered_amount_reads_back_witness :
  (0 <= 2500 < 2 ^ 52)%Z
  /\ minor_units_of (Number.toFixed2 (Number.div100 2500)) = 2500%Z.
Proof.
  split; [lia|]. apply (rendered_amount_reads_back 2500). lia.
Defined.
